(** * Actions middleware: result envelope codec and request dispatcher

    A shallow embedding of the actions middleware of Astro (the runtime
    module that exports [onRequest]): the authenticated result codec
    ([encodeResult] / [decodeResult]), the per-request [_actionsInternal]
    context and the dispatcher [onRequest] with its handlers.

    Conventions
    - a [Uint8Array] is a [list byte];
    - a JavaScript string is a [string]; the envelope alphabet is ASCII, so
      one character stands for one code unit;
    - asynchronous code runs to completion in program order (one request,
      cooperative scheduling), so [await e] is the evaluation of [e];
    - a thrown exception or rejected promise is the [Throw] outcome;
    - the objects the middleware hands out by reference are kept in the
      state: a result object at an address of the [heap], the context
      object behind the property that holds it; neither is frozen. *)

From Stdlib Require Import List Bool NArith ZArith Lia.
From Stdlib Require Import Strings.String Strings.Ascii Strings.Byte.
From Stdlib Require Import DecimalString.
Import ListNotations.

Set Warnings "-register-all".

Local Open Scope list_scope.
Local Open Scope string_scope.

(** ** Bytes *)

(** Storing a number into a [Uint8Array] keeps its low eight bits. *)
Definition u8 (n : N) : byte := byte_of_ascii (ascii_of_N n).

(** ** String slicing *)

(** [s.slice(0, n)]. *)
Fixpoint slice_to (n : nat) (s : string) : string :=
  match n, s with
  | S n', String c s' => String c (slice_to n' s')
  | _, _ => EmptyString
  end.

(** [s.slice(n)]. *)
Fixpoint slice_from (n : nat) (s : string) : string :=
  match n, s with
  | S n', String _ s' => slice_from n' s'
  | _, _ => s
  end.

(** ** [oslo/encoding]: hexadecimal *)

Module Hex.

Definition hexAlphabet : string := "0123456789abcdef".

(** [hexAlphabet[n]] *)
Definition digit (n : N) : ascii :=
  match String.get (N.to_nat n) hexAlphabet with
  | Some c => c
  | None => "0"%char
  end.

(** Value of a hexadecimal character; both cases are accepted. *)
Definition value (c : ascii) : option N :=
  let n := N_of_ascii c in
  if ((48 <=? n) && (n <=? 57))%N then Some (n - 48)%N
  else if ((97 <=? n) && (n <=? 102))%N then Some (n - 87)%N
  else if ((65 <=? n) && (n <=? 70))%N then Some (n - 55)%N
  else None.

(** [encodeHex(data)]: two characters per byte, high nibble first. *)
Fixpoint encodeHex (data : list byte) : string :=
  match data with
  | [] => EmptyString
  | b :: rest =>
      String (digit (N.shiftr (Byte.to_N b) 4))
        (String (digit (N.land (Byte.to_N b) 15)) (encodeHex rest))
  end.

(** [decodeHex(data)]: throws ([None]) on a character outside the
    alphabet and on an odd number of characters. *)
Fixpoint decodeHex (s : string) : option (list byte) :=
  match s with
  | EmptyString => Some []
  | String _ EmptyString => None
  | String c1 (String c2 rest) =>
      match value c1, value c2, decodeHex rest with
      | Some h, Some l, Some bs => Some (u8 (N.lor (N.shiftl h 4) l) :: bs)
      | _, _, _ => None
      end
  end.

End Hex.

(** ** [oslo/encoding]: base64 (standard alphabet, padded) *)

Module Base64.
Local Open Scope N_scope.

Definition alphabet : string :=
  "ABCDEFGHIJKLMNOPQRSTUVWXYZabcdefghijklmnopqrstuvwxyz0123456789+/".

Definition pad : ascii := "="%char.

(** [alphabet[n]] *)
Definition char (n : N) : ascii :=
  match String.get (N.to_nat n) alphabet with
  | Some c => c
  | None => pad
  end.

Fixpoint index_of (c : ascii) (s : string) (i : N) : option N :=
  match s with
  | EmptyString => None
  | String d s' => if (c =? d)%char then Some i else index_of c s' (N.succ i)
  end.

(** Position of a character in the alphabet. *)
Definition value (c : ascii) : option N := index_of c alphabet 0.

Definition is_empty (s : string) : bool :=
  match s with EmptyString => true | _ => false end.

(** The four sextets of a group of three bytes. *)
Definition sextet0 (a : N) : N := N.shiftr a 2.
Definition sextet1 (a b : N) : N := N.lor (N.shiftl (N.land a 3) 4) (N.shiftr b 4).
Definition sextet2 (b c : N) : N := N.lor (N.shiftl (N.land b 15) 2) (N.shiftr c 6).
Definition sextet3 (c : N) : N := N.land c 63.

(** The three bytes of a group of four sextets. *)
Definition octet0 (s0 s1 : N) : byte := u8 (N.lor (N.shiftl s0 2) (N.shiftr s1 4)).
Definition octet1 (s1 s2 : N) : byte :=
  u8 (N.lor (N.shiftl (N.land s1 15) 4) (N.shiftr s2 2)).
Definition octet2 (s2 s3 : N) : byte := u8 (N.lor (N.shiftl (N.land s2 3) 6) s3).

(** [base64.encode(data)] *)
Fixpoint encode (data : list byte) : string :=
  match data with
  | [] => EmptyString
  | [a] =>
      let a := Byte.to_N a in
      String (char (sextet0 a)) (String (char (sextet1 a 0))
        (String pad (String pad EmptyString)))
  | [a; b] =>
      let a := Byte.to_N a in
      let b := Byte.to_N b in
      String (char (sextet0 a)) (String (char (sextet1 a b))
        (String (char (sextet2 b 0)) (String pad EmptyString)))
  | a :: b :: c :: rest =>
      let a := Byte.to_N a in
      let b := Byte.to_N b in
      let c := Byte.to_N c in
      String (char (sextet0 a)) (String (char (sextet1 a b))
        (String (char (sextet2 b c)) (String (char (sextet3 c)) (encode rest))))
  end.

(** A character of the last chunk: the sextet it adds to the buffer and
    what it adds to the padding count.  The padding character is taken
    at any of the four places, adds nothing to the buffer and counts. *)
Definition last_value (c : ascii) : option (N * N) :=
  if (c =? pad)%char then Some (0, 1)
  else match value c with
       | Some s => Some (s, 0)
       | None => None
       end.

(** [base64.decode(data)], in the strict mode it has by default.  The
    string is read in chunks of four characters and has to consist of
    full chunks.  In a chunk before the last one every character has to
    be of the alphabet.  In the last chunk the padding character is
    skipped and counted wherever it stands.  Every chunk gives the
    first byte of its 24-bit buffer, the second one when fewer than two
    padding characters were counted, the third one when none was.
    It throws ([None]) otherwise. *)
Fixpoint decode (s : string) : option (list byte) :=
  match s with
  | EmptyString => Some []
  | String c0 (String c1 (String c2 (String c3 rest))) =>
      if is_empty rest then
        match last_value c0, last_value c1, last_value c2, last_value c3 with
        | Some (s0, p0), Some (s1, p1), Some (s2, p2), Some (s3, p3) =>
            let padCount := p0 + p1 + p2 + p3 in
            Some (octet0 s0 s1
                  :: (if padCount <? 2 then [octet1 s1 s2] else [])
                  ++ (if padCount <? 1 then [octet2 s2 s3] else []))%list
        | _, _, _, _ => None
        end
      else
        match value c0, value c1, value c2, value c3, decode rest with
        | Some s0, Some s1, Some s2, Some s3, Some bs =>
            Some (octet0 s0 s1 :: octet1 s1 s2 :: octet2 s2 s3 :: bs)
        | _, _, _, _, _ => None
        end
  | _ => None
  end.

End Base64.

(** ** Data model *)

(** JSON values: the payload of an action result. *)
Inductive json : Type :=
| JNull
| JBool (b : bool)
| JNumber (z : Z)
| JString (s : string)
| JArray (items : list json)
| JObject (fields : list (string * json)).

Module ActionError.
(** The [error] member of an action result: the name of the error
    kind, its HTTP status code and a message. *)
Record t : Type := make { type : string; status : Z; message : string }.
End ActionError.

(** The result of calling an action safely: [{ data }] or [{ error }]. *)
Inductive ActionResult : Type :=
| Ok (data : json)
| Error (error : ActionError.t).

(** [actionResult.error] *)
Definition error (actionResult : ActionResult) : option ActionError.t :=
  match actionResult with
  | Ok _ => None
  | Error e => Some e
  end.

(** Thrown values: a JavaScript error object with its constructor name
    and message, or an [ActionError] raised by an action. *)
Inductive Thrown : Type :=
| JsError (name message : string)
| ThrownActionError (e : ActionError.t).

Inductive Outcome (A : Type) : Type :=
| Return (a : A)
| Throw (e : Thrown).
Arguments Return {A} a.
Arguments Throw {A} e.

(** Entries of a [FormData], [URLSearchParams] or [Headers] object, in
    insertion order. *)
Definition Entries : Type := list (string * string).

(** [entries.get(name)]: the first value stored under [name]. *)
Fixpoint entries_get (name : string) (entries : Entries) : option string :=
  match entries with
  | [] => None
  | (k, v) :: rest => if String.eqb k name then Some v else entries_get name rest
  end.

(** [entries.delete(name)] *)
Fixpoint entries_delete (name : string) (entries : Entries) : Entries :=
  match entries with
  | [] => []
  | (k, v) :: rest =>
      if String.eqb k name then entries_delete name rest
      else (k, v) :: entries_delete name rest
  end.

(** [searchParams.set(name, value)]: the first entry named [name] takes
    the value and the other ones are removed; without such an entry the
    pair is appended. *)
Fixpoint entries_set (name value : string) (entries : Entries) : Entries :=
  match entries with
  | [] => [(name, value)]
  | (k, v) :: rest =>
      if String.eqb k name then (name, value) :: entries_delete name rest
      else (k, v) :: entries_set name value rest
  end.

Definition FormData : Type := Entries.

Module Request.
Record t : Type := make {
  method : string;
  headers : Entries;
  body : option (list byte)
}.
End Request.

Module URL.
(** [base] is the URL up to its query; [searchParams] the query. *)
Record t : Type := make { base : string; searchParams : Entries }.
End URL.

Module Response.
Record t : Type := make {
  status : Z;
  statusText : string;
  headers : Entries;
  body : option (list byte)
}.
End Response.

(** [APIContext], without [locals], which is part of the mutable world. *)
Record APIContext : Type := { request : Request.t; url : URL.t }.

(** A server action: it reads the ambient context and its input. *)
Definition Action : Type := option APIContext -> option FormData -> Outcome json.

(** An action reference as pages hold it; [toString()] is its identity. *)
Record ActionRef : Type := { toString : string }.

(** The address of a result object in the store. *)
Definition Ref : Type := nat.

(** The three [_actionsInternal] objects the middleware builds, each
    standing for the object as built and for the closure of its
    [getActionResult]; the closure of the first one captures the action
    name and the result object, by reference. *)
Inductive ActionsInternal : Type :=
| ResultContext (actionName : string) (actionResult : Ref)
| StaticStub
| LocalsStub.

(** What [getActionResult] hands back, and what the [actionResult]
    member of a context holds: [undefined], a result object (by
    reference) or a promise. *)
Inductive JsValue : Type :=
| Undefined
| Reference (object : Ref)
| ResolvedPromise (v : JsValue).

(** [await v] *)
Fixpoint await (v : JsValue) : JsValue :=
  match v with
  | ResolvedPromise v' => await v'
  | _ => v
  end.

(** ** Request-scoped state *)

(** A data property of [context.locals]. *)
Record Property : Type := {
  value : ActionsInternal;
  writable : bool;
  enumerable : bool;
  configurable : bool
}.

(** [context.locals], at the type [Locals] of the middleware. *)
Record Locals : Type := { _actionsInternal : option Property }.

(** What has been stored, since the context object was built, in the
    two members its type declares; [None] for a member that is as the
    middleware built it.  The middleware does not freeze the object, so
    these writes succeed. *)
Record Written : Type := {
  getActionResult_written : option (ActionRef -> JsValue);
  actionResult_written : option JsValue
}.

Definition untouched : Written :=
  {| getActionResult_written := None; actionResult_written := None |}.

(** Observable steps of the middleware. *)
Inductive Event : Type :=
| GetAction (name : string)
| CallAction (name : string) (formData : option FormData)
| DefineProperty (value : ActionsInternal)
| ConsoleWarn (message : string)
| ConsoleLog (message : string).

(** The state a request runs in.  [heap] holds the result objects that
    are shared by reference, each at its address and as it is now;
    [written] is the state of the context object that
    [locals._actionsInternal] refers to, which is reached through that
    property only. *)
Record World : Type := {
  locals : Locals;
  heap : list ActionResult;      (* the result objects, by address *)
  written : Written;             (* the members of the context object *)
  storage : option APIContext;   (* the store of [ApiContextStorage] *)
  entropy : nat -> byte;         (* the random source *)
  drawn : nat;                   (* bytes consumed from it *)
  trace : list Event
}.

Definition with_locals (l : Locals) (w : World) : World :=
  {| locals := l; heap := heap w; written := written w; storage := storage w;
     entropy := entropy w; drawn := drawn w; trace := trace w |}.

Definition with_heap (h : list ActionResult) (w : World) : World :=
  {| locals := locals w; heap := h; written := written w; storage := storage w;
     entropy := entropy w; drawn := drawn w; trace := trace w |}.

Definition with_written (f : Written) (w : World) : World :=
  {| locals := locals w; heap := heap w; written := f; storage := storage w;
     entropy := entropy w; drawn := drawn w; trace := trace w |}.

Definition with_storage (s : option APIContext) (w : World) : World :=
  {| locals := locals w; heap := heap w; written := written w; storage := s;
     entropy := entropy w; drawn := drawn w; trace := trace w |}.

Definition with_drawn (n : nat) (w : World) : World :=
  {| locals := locals w; heap := heap w; written := written w; storage := storage w;
     entropy := entropy w; drawn := n; trace := trace w |}.

Definition with_trace (t : list Event) (w : World) : World :=
  {| locals := locals w; heap := heap w; written := written w; storage := storage w;
     entropy := entropy w; drawn := drawn w; trace := t |}.

(** ** Computations *)

Definition M (A : Type) : Type := World -> Outcome A * World.

Definition ret {A : Type} (a : A) : M A := fun w => (Return a, w).

Definition throw {A : Type} (e : Thrown) : M A := fun w => (Throw e, w).

Definition bind {A B : Type} (m : M A) (k : A -> M B) : M B :=
  fun w =>
    match m w with
    | (Return a, w') => k a w'
    | (Throw e, w') => (Throw e, w')
    end.

Notation "x <- m ;; k" := (bind m (fun x => k))
  (at level 61, m at next level, right associativity).
Notation "m ;;; k" := (bind m (fun _ => k))
  (at level 61, right associativity).

(** A library call that throws [e] when it fails. *)
Definition orThrow {A : Type} (e : Thrown) (o : option A) : M A :=
  match o with
  | Some a => ret a
  | None => throw e
  end.

Definition emit (ev : Event) : M unit :=
  fun w => (Return tt, with_trace (trace w ++ [ev])%list w).

(** The next [n] bytes of the random source. *)
Definition draw (n : nat) (w : World) : list byte :=
  map (entropy w) (seq (drawn w) n).

(** [crypto.getRandomValues(new Uint8Array(n))] *)
Definition getRandomValues (n : nat) : M (list byte) :=
  fun w => (Return (draw n w), with_drawn (drawn w + n) w).

(** ** Result objects in the store *)

(** The world once the result object [r] entered the store. *)
Definition sharing (r : ActionResult) (w : World) : World :=
  with_heap (heap w ++ [r])%list w.

(** A result object starts to be shared: it enters the store at the
    next free address. *)
Definition share (r : ActionResult) : M Ref :=
  fun w => (Return (List.length (heap w)), sharing r w).

(** The result object at an address as it is now.  An address the store
    does not hold -- no program brings that about -- reads as the object
    as built. *)
Definition current (object : Ref) (built : ActionResult) (w : World) : ActionResult :=
  nth object (heap w) built.

Definition read (object : Ref) (built : ActionResult) : M ActionResult :=
  fun w => (Return (current object built w), w).

Fixpoint replace_nth {A : Type} (n : nat) (a : A) (l : list A) : list A :=
  match n, l with
  | 0, _ :: l' => a :: l'
  | S n', x :: l' => x :: replace_nth n' a l'
  | _, [] => []
  end.

(** Writes to the members of the result object at an address
    ([result.error = ...], [result.data = ...]) that leave it as [r]. *)
Definition mutate (object : Ref) (r : ActionResult) : M unit :=
  fun w => (Return tt, with_heap (replace_nth object r (heap w)) w).

(** Modelled from the spec: [ApiContextStorage.run(context, callback)]
    of [./store.js], the ambient per-request storage that makes the
    current request available to nested calls: the callback runs with
    [context] as the store, and the previous store is back afterwards. *)
Definition ApiContextStorage_run {A : Type} (context : APIContext) (callback : M A) : M A :=
  fun w =>
    let (o, w') := callback (with_storage (Some context) w) in
    (o, with_storage (storage w) w').

(** ** Property operations on [context.locals] *)

Definition cannot_redefine : Thrown :=
  JsError "TypeError" "Cannot redefine property: _actionsInternal".

Definition cannot_assign : Thrown :=
  JsError "TypeError" "Cannot assign to read only property '_actionsInternal' of object".

Definition cannot_delete : Thrown :=
  JsError "TypeError" "Cannot delete property '_actionsInternal' of object".

(** The property a first [Object.defineProperty] creates. *)
Definition frozen (v : ActionsInternal) : Property :=
  {| value := v; writable := false; enumerable := false; configurable := false |}.

(** The world once [v], just built, got installed on locals that had
    no context. *)
Definition install (v : ActionsInternal) (w : World) : World :=
  with_trace (trace w ++ [DefineProperty v])%list
    (with_written untouched
       (with_locals {| _actionsInternal := Some (frozen v) |} w)).

(** [Object.defineProperty(locals, '_actionsInternal', { writable: false, value })]
    for an object [value] that was just built.
    A new property takes [false] for the attributes left out.  An
    existing one is changed when it is configurable or still writable; a
    frozen one is never the same object as a fresh [value], so the call
    throws. *)
Definition Object_defineProperty (v : ActionsInternal) : M unit :=
  fun w =>
    let define p :=
      (Return tt,
       with_trace (trace w ++ [DefineProperty v])%list
         (with_written untouched
            (with_locals {| _actionsInternal := Some p |} w))) in
    match _actionsInternal (locals w) with
    | None =>
        define {| value := v; writable := false;
                   enumerable := false; configurable := false |}
    | Some p =>
        if configurable p || writable p
        then define {| value := v; writable := false;
                        enumerable := enumerable p;
                        configurable := configurable p |}
        else (Throw cannot_redefine, w)
    end.

(** [locals._actionsInternal = v] in strict-mode code, for an object
    [v] that was just built. *)
Definition assign (v : ActionsInternal) : M unit :=
  fun w =>
    match _actionsInternal (locals w) with
    | None =>
        (Return tt,
         with_written untouched
           (with_locals {| _actionsInternal :=
                             Some {| value := v; writable := true;
                                     enumerable := true; configurable := true |} |} w))
    | Some p =>
        if writable p
        then (Return tt,
              with_written untouched
                (with_locals {| _actionsInternal :=
                                  Some {| value := v; writable := true;
                                          enumerable := enumerable p;
                                          configurable := configurable p |} |} w))
        else (Throw cannot_assign, w)
    end.

(** [delete locals._actionsInternal] in strict-mode code. *)
Definition delete_property : M unit :=
  fun w =>
    match _actionsInternal (locals w) with
    | None => (Return tt, w)
    | Some p =>
        if configurable p
        then (Return tt,
              with_written untouched (with_locals {| _actionsInternal := None |} w))
        else (Throw cannot_delete, w)
    end.

(** ** Members of the context object

    The object is not frozen: only the property of the locals that holds
    it is protected.  Its members are read and written through that
    property. *)

Definition cannot_read_member (member : string) : Thrown :=
  JsError "TypeError"
    ("Cannot read properties of undefined (reading '" ++ member ++ "')").

Definition cannot_set_member (member : string) : Thrown :=
  JsError "TypeError"
    ("Cannot set properties of undefined (setting '" ++ member ++ "')").

(** [locals._actionsInternal.getActionResult = g] *)
Definition set_getActionResult (g : ActionRef -> JsValue) : M unit :=
  fun w =>
    match _actionsInternal (locals w) with
    | Some _ =>
        (Return tt,
         with_written {| getActionResult_written := Some g;
                         actionResult_written := actionResult_written (written w) |} w)
    | None => (Throw (cannot_set_member "getActionResult"), w)
    end.

(** [locals._actionsInternal.actionResult = v] *)
Definition set_actionResult (v : JsValue) : M unit :=
  fun w =>
    match _actionsInternal (locals w) with
    | Some _ =>
        (Return tt,
         with_written {| getActionResult_written := getActionResult_written (written w);
                         actionResult_written := Some v |} w)
    | None => (Throw (cannot_set_member "actionResult"), w)
    end.

(** The [actionResult] member as built: line 102 stores the result
    object there; the stubs have no such member. *)
Definition actionResult_of (a : ActionsInternal) : JsValue :=
  match a with
  | ResultContext _ actionResult => Reference actionResult
  | _ => Undefined
  end.

(** [locals._actionsInternal.actionResult] *)
Definition get_actionResult : M JsValue :=
  fun w =>
    match _actionsInternal (locals w) with
    | Some p =>
        match actionResult_written (written w) with
        | Some v => (Return v, w)
        | None => (Return (actionResult_of (value p)), w)
        end
    | None => (Throw (cannot_read_member "actionResult"), w)
    end.

(** ** Collaborators

    The platform and the sibling modules the middleware imports: Web
    Crypto, [TextEncoder] / [TextDecoder], [JSON], the action registry
    and helpers of [./utils.js] and [./virtual/shared.js], form parsing
    and URL serialisation. *)

Class Platform : Type := {
  Key : Type;
  (** [actionKey] *)
  actionKey : Key;
  (** [crypto.subtle.encrypt({ name: 'AES-GCM', iv }, key, data)] *)
  encrypt : Key -> list byte -> list byte -> list byte;
  (** [crypto.subtle.decrypt({ name: 'AES-GCM', iv }, key, data)];
      [None] when authentication fails *)
  decrypt : Key -> list byte -> list byte -> option (list byte);
  (** [encoder.encode] and [decoder.decode] *)
  encoder_encode : string -> list byte;
  decoder_decode : list byte -> string;
  (** [JSON.stringify] and [JSON.parse] at the type of action results;
      [None] for a [SyntaxError] *)
  JSON_stringify : ActionResult -> string;
  JSON_parse : string -> option ActionResult;
  (** [getAction(name)]: the registry *)
  getAction : string -> option Action;
  (** [hasContentType(contentType, expected)] and [formContentTypes] *)
  hasContentType : string -> list string -> bool;
  formContentTypes : list string;
  (** [getActionQueryString(name)] *)
  getActionQueryString : string -> string;
  (** [request.clone().formData()]; [None] when the body does not parse *)
  request_formData : Request.t -> option FormData;
  (** [context.redirect(location)] *)
  redirect : string -> Response.t;
  (** [url.href] *)
  href : URL.t -> string
}.

(** The platform with another action registry. *)
Definition with_registry (registry : string -> option Action) (P : Platform)
  : Platform := {|
  Key := @Key P;
  actionKey := @actionKey P;
  encrypt := @encrypt P;
  decrypt := @decrypt P;
  encoder_encode := @encoder_encode P;
  decoder_decode := @decoder_decode P;
  JSON_stringify := @JSON_stringify P;
  JSON_parse := @JSON_parse P;
  getAction := registry;
  hasContentType := @hasContentType P;
  formContentTypes := @formContentTypes P;
  getActionQueryString := @getActionQueryString P;
  request_formData := @request_formData P;
  redirect := @redirect P;
  href := @href P
|}.

(** Counting the installations of a context in a trace. *)
Definition is_install (ev : Event) : bool :=
  match ev with
  | DefineProperty _ => true
  | _ => false
  end.

Definition installs (t : list Event) : nat := List.length (filter is_install t).

(** Counting the action calls in a trace. *)
Definition is_call (ev : Event) : bool :=
  match ev with
  | CallAction _ _ => true
  | _ => false
  end.

Definition calls (t : list Event) : nat := List.length (filter is_call t).

(** [w'] still has the frozen context [v] of [w], and no installation
    and no action call happened in between. *)
Definition keeps (v : ActionsInternal) (w w' : World) : Prop :=
  _actionsInternal (locals w') = Some (frozen v) /\
  installs (trace w') = installs (trace w) /\
  calls (trace w') = calls (trace w).

(** [context.url.searchParams.get(name)] *)
Definition searchParam (context : APIContext) (name : string) : option string :=
  entries_get name (URL.searchParams (url context)).

(** ** The middleware *)

Section Middleware.
Context {P : Platform}.

(** Truthiness of a string that may be [null]. *)
Definition truthy (v : option string) : bool :=
  match v with
  | Some (String _ _) => true
  | _ => false
  end.

(** The string behind a truthy value. *)
Definition the (v : option string) : string :=
  match v with
  | Some s => s
  | None => EmptyString
  end.

Definition dquote : string := String (ascii_of_nat 34) EmptyString.

Definition not_found (actionName : string) : Thrown :=
  JsError "Error" ("Action " ++ dquote ++ actionName ++ dquote ++ " not found.").

Definition invoked_with_get : Thrown :=
  JsError "Error"
    ("Actions cannot be invoked with GET requests. Did you forget to set method="
     ++ dquote ++ "post" ++ dquote ++ " on your form?").

(** The two arguments of [console.warn] in the static stub, as one line. *)
Definition static_stub_warning : string :=
  "[astro:actions] `getActionResult()` should not be called on prerendered pages. Astro can only handle actions for pages rendered on-demand.".

(** [await getAction(actionName)] *)
Definition lookup (actionName : string) : M (option Action) :=
  emit (GetAction actionName) ;;; ret (getAction actionName).

(** [action(formData)] *)
Definition call (actionName : string) (action : Action)
    (formData : option FormData) : M json :=
  emit (CallAction actionName formData) ;;;
  fun w => (action (storage w) formData, w).

(** Modelled from the spec: [callSafely] of [./virtual/shared.js], which
    is not among the sources.  A normal return is wrapped as [Ok]; any
    failure is captured as an [Error] result, an unrecognised one with
    status 500 and kind [InternalServerError]; nothing is propagated. *)
Definition captured (o : Outcome json) : ActionResult :=
  match o with
  | Return data => Ok data
  | Throw (ThrownActionError e) => Error e
  | Throw (JsError _ message) =>
      Error (ActionError.make "InternalServerError" 500 message)
  end.

(** Modelled from the spec: [callSafely(thunk)] runs the thunk and
    returns what [captured] makes of its outcome. *)
Definition callSafely (thunk : M json) : M ActionResult :=
  fun w => let (o, w') := thunk w in (Return (captured o), w').

(** What [formData()] rejects with. *)
Definition cannot_parse : Thrown :=
  JsError "TypeError" "Failed to parse body as FormData.".

(** Lines 76-80 and 129-133, the same in both handlers: the form data
    of a request, read when its content type is one of a form. *)
Definition form_like (request : Request.t) : bool :=
  let contentType := entries_get "content-type" (Request.headers request) in
  truthy contentType && hasContentType (the contentType) formContentTypes.

Definition formDataOf (request : Request.t) : M (option FormData) :=
  if form_like request
  then
    fd <- orThrow cannot_parse (request_formData request) ;;
    ret (Some fd)
  else ret None.

Definition encodeResult (result : ActionResult) : M string :=
  iv <- getRandomValues 12 ;;
  let data := encoder_encode (JSON_stringify result) in
  let encryptedBuffer := encrypt actionKey iv data in
  let encryptedString := Base64.encode encryptedBuffer in
  ret (Hex.encodeHex iv ++ encryptedString).

Definition decodeResult (encodedResult : string) : M ActionResult :=
  iv <- orThrow (JsError "Error" "Invalid character")
          (Hex.decodeHex (slice_to 24 encodedResult)) ;;
  dataArray <- orThrow (JsError "Error" "Invalid character")
                 (Base64.decode (slice_from 24 encodedResult)) ;;
  decryptedBuffer <- orThrow (JsError "OperationError"
                                "The operation failed for an operation-specific reason")
                       (decrypt actionKey iv dataArray) ;;
  let decryptedString := decoder_decode decryptedBuffer in
  orThrow (JsError "SyntaxError" "Unexpected token in JSON") (JSON_parse decryptedString).

(** The [getActionResult] closure of each [_actionsInternal] object.
    The one of [handleResult] returns the result object itself, not a
    copy. *)
Definition getActionResult (self : ActionsInternal) (actionFn : ActionRef) : M JsValue :=
  match self with
  | ResultContext actionName actionResult =>
      if negb (String.eqb (toString actionFn) (getActionQueryString actionName))
      then ret (ResolvedPromise Undefined)
      else ret (Reference actionResult)
  | StaticStub =>
      emit (ConsoleWarn static_stub_warning) ;;; ret Undefined
  | LocalsStub => ret Undefined
  end.

(** *** The [Response] constructor *)

(** Conversion to [unsigned short], the type of the [status] member of
    the constructor's options: an integer is taken modulo 2^16. *)
Definition unsigned_short (z : Z) : Z := (z mod 65536)%Z.

(** The statuses of responses that have no body. *)
Definition null_body_status (status : Z) : bool :=
  ((status =? 101) || (status =? 103) || (status =? 204)
   || (status =? 205) || (status =? 304))%Z.

(** A character of a reason phrase: a tab, a space, a visible ASCII
    character or a code unit from 128 to 255. *)
Definition reason_phrase_char (c : ascii) : bool :=
  let n := N_of_ascii c in
  ((n =? 9) || ((32 <=? n) && (n <=? 126)) || (128 <=? n))%N.

Fixpoint reason_phrase (s : string) : bool :=
  match s with
  | EmptyString => true
  | String c s' => reason_phrase_char c && reason_phrase s'
  end.

Definition status_out_of_range : Thrown :=
  JsError "RangeError"
    ("init[" ++ dquote ++ "status" ++ dquote
     ++ "] must be in the range of 200 to 599, inclusive.").

Definition invalid_statusText : Thrown := JsError "TypeError" "Invalid statusText".

Definition invalid_status_with_body (status : Z) : Thrown :=
  JsError "TypeError"
    ("Response constructor: Invalid response status code "
     ++ NilZero.string_of_int (Z.to_int status)).

(** [new Response(body, { status, statusText, headers })], where [body]
    is the body of another response, not read yet, and [headers] its
    headers.  The constructor refuses a status outside 200..599 with a
    [RangeError], then a status text that is no reason phrase with a
    [TypeError], then a body together with a status of responses
    without body with a [TypeError]. *)
Definition Response_new (body : option (list byte)) (status : Z)
    (statusText : string) (headers : Entries) : M Response.t :=
  let status := unsigned_short status in
  if negb ((200 <=? status) && (status <=? 599))%Z
  then throw status_out_of_range
  else if negb (reason_phrase statusText)
  then throw invalid_statusText
  else
    match body with
    | Some _ =>
        if null_body_status status
        then throw (invalid_status_with_body status)
        else ret (Response.make status statusText headers body)
    | None => ret (Response.make status statusText headers body)
    end.

(** The error's status and type are ones the constructor takes as they
    are for a response with this body. *)
Definition presentable (e : ActionError.t) (body : option (list byte)) : bool :=
  ((200 <=? ActionError.status e) && (ActionError.status e <=? 599))%Z
  && reason_phrase (ActionError.type e)
  && match body with
     | Some _ => negb (null_body_status (ActionError.status e))
     | None => true
     end.

(** Lines 109-116: what [handleResult] makes of the downstream response,
    given the result object as it is by then. *)
Definition withErrorStatus (actionResult : ActionResult) (response : Response.t)
  : M Response.t :=
  match error actionResult with
  | Some e =>
      Response_new (Response.body response) (ActionError.status e)
        (ActionError.type e) (Response.headers response)
  | None => ret response
  end.

(** The result object is shared from here on: between the closure of
    [getActionResult], which returns it, the [actionResult] member, and
    the callback that reads its [error] after downstream has run. *)
Definition handleResult (context : APIContext) (next : M Response.t)
    (actionName : string) (actionResult : ActionResult) : M Response.t :=
  shared <- share actionResult ;;
  let actionsInternal := ResultContext actionName shared in
  Object_defineProperty actionsInternal ;;;
  ApiContextStorage_run context
    (response <- next ;;
     actionResult <- read shared actionResult ;;
     withErrorStatus actionResult response).

Definition nextWithStaticStub (next : M Response.t) (context : APIContext)
  : M Response.t :=
  Object_defineProperty StaticStub ;;;
  ApiContextStorage_run context next.

Definition nextWithLocalsStub (next : M Response.t) (context : APIContext)
  : M Response.t :=
  Object_defineProperty LocalsStub ;;;
  ApiContextStorage_run context next.

Definition handlePost (context : APIContext) (next : M Response.t)
    (actionName : string) : M Response.t :=
  let request := request context in
  match Request.body request with
  | None => nextWithStaticStub next context
  | Some _ =>
      action <- lookup actionName ;;
      match action with
      | None => throw (not_found actionName)
      | Some action =>
          formData <- formDataOf request ;;
          result <- ApiContextStorage_run context
                      (callSafely (call actionName action formData)) ;;
          encoded <- encodeResult result ;;
          let redirectUrl :=
            URL.make (URL.base (url context))
              (entries_set "__result" encoded (URL.searchParams (url context))) in
          emit (ConsoleLog ("$$$redirect " ++ href redirectUrl)) ;;;
          ret (redirect (href redirectUrl))
      end
  end.

Definition handlePostLegacy (context : APIContext) (next : M Response.t)
  : M Response.t :=
  let request := request context in
  match Request.body request with
  | None => nextWithStaticStub next context
  | Some _ =>
      formData <- formDataOf request ;;
      match formData with
      | None => nextWithLocalsStub next context
      | Some fd =>
          let actionName := entries_get "__action" fd in
          if negb (truthy actionName) then nextWithLocalsStub next context
          else
            action <- lookup (the actionName) ;;
            match action with
            | None => throw (not_found (the actionName))
            | Some action =>
                actionResult <- ApiContextStorage_run context
                                  (callSafely (call (the actionName) action formData)) ;;
                handleResult context next (the actionName) actionResult
            end
      end
  end.

Definition onRequest (context : APIContext) (next : M Response.t) : M Response.t :=
  fun w =>
    match _actionsInternal (locals w) with
    | Some _ => ApiContextStorage_run context next w
    | None =>
        let method := Request.method (request context) in
        let actionName := searchParam context "__action" in
        let encodedActionResult :=
          searchParam context "__result" in
        if String.eqb method "GET" && truthy actionName && truthy encodedActionResult
        then
          (actionResult <- decodeResult (the encodedActionResult) ;;
           handleResult context next (the actionName) actionResult) w
        else if String.eqb method "POST" && truthy actionName
        then handlePost context next (the actionName) w
        else if String.eqb method "GET" && truthy actionName
        then throw invoked_with_get w
        else if String.eqb method "POST"
        then handlePostLegacy context next w
        else nextWithLocalsStub next context w
    end.

(** ** Assumptions on the platform *)

(** Decryption under the key and nonce of the encryption gives the
    plaintext back. *)
Definition aead_correct : Prop :=
  forall iv data, decrypt actionKey iv (encrypt actionKey iv data) = Some data.

(** The text survives [TextEncoder] and [TextDecoder]. *)
Definition text_lossless (s : string) : Prop :=
  decoder_decode (encoder_encode s) = s.

(** The result survives [JSON.stringify] and [JSON.parse]. *)
Definition JSON_serializable (r : ActionResult) : Prop :=
  JSON_parse (JSON_stringify r) = Some r.

(** The envelope of [r] under the nonce [iv]. *)
Definition envelope (iv : list byte) (r : ActionResult) : string :=
  Hex.encodeHex iv
  ++ Base64.encode (encrypt actionKey iv (encoder_encode (JSON_stringify r))).

End Middleware.

(** ** Downstream

    What runs behind the middleware -- later middleware and the page --
    as a program over the request context.  It may ask for an action
    result; read and overwrite the members of the context object
    ([getActionResult], [actionResult]), which is not frozen; read a
    result object it got hold of and write to its members; try to
    write, redefine or delete the property [_actionsInternal] itself
    (seeing whether that threw); rewrite to another route, which runs
    the middleware again in front of the rest; and in the end respond or
    fail. *)

Inductive Downstream : Type :=
| Respond (response : Response.t)
| Fail (e : Thrown)
| Query (actionFn : ActionRef) (k : Outcome JsValue -> Downstream)
| GetResult (k : Outcome JsValue -> Downstream)
| SetGetter (g : ActionRef -> JsValue) (k : Outcome unit -> Downstream)
| SetResult (v : JsValue) (k : Outcome unit -> Downstream)
| Inspect (object : Ref) (k : option ActionResult -> Downstream)
| Mutate (object : Ref) (r : ActionResult) (k : Downstream)
| Assign (v : ActionsInternal) (k : Outcome unit -> Downstream)
| Define (v : ActionsInternal) (k : Outcome unit -> Downstream)
| Delete (k : Outcome unit -> Downstream)
| Rewrite (context : APIContext) (rest : Downstream)
    (k : Outcome Response.t -> Downstream).

(** [try { m } catch], handing the outcome on. *)
Definition attempt {A B : Type} (m : M A) (k : Outcome A -> M B) : M B :=
  fun w => let (o, w') := m w in k o w'.

Section Downstream.
Context {P : Platform}.

(** [locals._actionsInternal.getActionResult(actionFn)]: the call goes
    to the function the member holds by now. *)
Definition query (actionFn : ActionRef) : M JsValue :=
  fun w =>
    match _actionsInternal (locals w) with
    | Some p =>
        match getActionResult_written (written w) with
        | Some g => (Return (g actionFn), w)
        | None => getActionResult (value p) actionFn w
        end
    | None => (Throw (cannot_read_member "getActionResult"), w)
    end.

Fixpoint exec (d : Downstream) : M Response.t :=
  match d with
  | Respond response => ret response
  | Fail e => throw e
  | Query actionFn k => attempt (query actionFn) (fun o => exec (k o))
  | GetResult k => attempt get_actionResult (fun o => exec (k o))
  | SetGetter g k => attempt (set_getActionResult g) (fun o => exec (k o))
  | SetResult v k => attempt (set_actionResult v) (fun o => exec (k o))
  | Inspect object k => fun w => exec (k (nth_error (heap w) object)) w
  | Mutate object r k => mutate object r ;;; exec k
  | Assign v k => attempt (assign v) (fun o => exec (k o))
  | Define v k => attempt (Object_defineProperty v) (fun o => exec (k o))
  | Delete k => attempt delete_property (fun o => exec (k o))
  | Rewrite context rest k =>
      attempt (onRequest context (exec rest)) (fun o => exec (k o))
  end.

(** The requests the dispatcher passes downstream when no context is
    installed yet, after the transition table of the specification:
    result delivery with an envelope that decodes; a POST naming an
    action in the URL whose body is null; a legacy POST whose body is
    null, or is not a form, or is a form without an [__action] field or
    with one naming a registered action; and every request that is none
    of these and not a GET naming an action. *)
Definition installing_path (context : APIContext) (w : World) : bool :=
  let method := Request.method (request context) in
  let actionName := searchParam context "__action" in
  let encodedActionResult := searchParam context "__result" in
  if String.eqb method "GET" && truthy actionName && truthy encodedActionResult
  then
    match fst (decodeResult (the encodedActionResult) w) with
    | Return _ => true
    | Throw _ => false
    end
  else if String.eqb method "POST" && truthy actionName
  then
    match Request.body (request context) with
    | None => true
    | Some _ => false
    end
  else if String.eqb method "GET" && truthy actionName
  then false
  else if String.eqb method "POST"
  then
    match Request.body (request context) with
    | None => true
    | Some _ =>
        if form_like (request context)
        then
          match request_formData (request context) with
          | None => false
          | Some fd =>
              if truthy (entries_get "__action" fd)
              then
                match getAction (the (entries_get "__action" fd)) with
                | Some _ => true
                | None => false
                end
              else true
          end
        else true
    end
  else true.

(** The dispatcher ends the request itself: whatever the continuation,
    the outcome is the same, and no context got installed. *)
Definition stops (context : APIContext) (w : World) : Prop :=
  exists o w',
    (forall next, onRequest context next w = (o, w')) /\
    _actionsInternal (locals w') = None /\
    installs (trace w') = installs (trace w).

(** What the callback of [handleResult] does with the downstream
    response, for a result object at [shared] built as [built]. *)
Definition deliver (shared : Ref) (built : ActionResult) (response : Response.t)
  : M Response.t :=
  actionResult <- read shared built ;;
  withErrorStatus actionResult response.

(** The dispatcher hands over to the continuation after one
    installation: of [v], as a property that is neither writable nor
    configurable, on locals that had none.  What it returns is the
    downstream response, passed through [post]: as it is for the stubs,
    through [deliver] for a result.  From then on the property cannot
    be assigned, redefined or deleted, and it is the same at the end of
    the request whatever downstream does; the object it holds is not
    frozen, so that a function downstream stores in its
    [getActionResult] member answers the later calls. *)
Definition hands_over (context : APIContext) (w : World) : Prop :=
  exists v before post,
    (forall next,
       onRequest context next w
       = ApiContextStorage_run context
           (response <- next ;; post response) (install v before)) /\
    (post = (fun response => ret response) \/
     exists actionName shared built,
       v = ResultContext actionName shared /\ post = deliver shared built) /\
    _actionsInternal (locals before) = None /\
    installs (trace before) = installs (trace w) /\
    installs (trace (install v before)) = installs (trace w) + 1 /\
    _actionsInternal (locals (install v before))
    = Some {| value := v; writable := false;
              enumerable := false; configurable := false |} /\
    (forall v', assign v' (install v before)
                = (Throw cannot_assign, install v before)) /\
    (forall v', Object_defineProperty v' (install v before)
                = (Throw cannot_redefine, install v before)) /\
    delete_property (install v before) = (Throw cannot_delete, install v before) /\
    (forall g actionFn,
       let overwritten := snd (set_getActionResult g (install v before)) in
       fst (set_getActionResult g (install v before)) = Return tt /\
       _actionsInternal (locals overwritten)
       = _actionsInternal (locals (install v before)) /\
       query actionFn overwritten = (Return (g actionFn), overwritten)) /\
    (forall d,
       let after := snd (onRequest context (exec d) w) in
       _actionsInternal (locals after) = _actionsInternal (locals (install v before)) /\
       installs (trace after) = installs (trace w) + 1).

End Downstream.

(** ** A small platform to run the middleware on

    Stand-ins for the collaborators: a cipher that prefixes the nonce,
    which decryption checks; a serializer for string payloads and for
    errors with a three-digit status; a registry of two actions; forms in the
    [k=v&k=v] notation. *)

Module Demo.

Fixpoint strip_prefix (p l : list byte) : option (list byte) :=
  match p, l with
  | [], _ => Some l
  | x :: p', y :: l' => if Byte.eqb x y then strip_prefix p' l' else None
  | _ :: _, [] => None
  end.

(** Splitting at a separator. *)
Fixpoint split_on (sep : ascii) (s : string) : list string :=
  match s with
  | EmptyString => [EmptyString]
  | String c s' =>
      if (c =? sep)%char then EmptyString :: split_on sep s'
      else match split_on sep s' with
           | [] => [String c EmptyString]
           | x :: xs => String c x :: xs
           end
  end.

(** Three decimal digits of a status code. *)
Definition digit_char (n : nat) : ascii := ascii_of_nat (48 + n).

Definition digit_value (c : ascii) : nat := nat_of_ascii c - 48.

Definition status_text (status : Z) : string :=
  let n := Z.to_nat status in
  String (digit_char (n / 100 mod 10))
    (String (digit_char (n / 10 mod 10))
       (String (digit_char (n mod 10)) EmptyString)).

Definition stringify (r : ActionResult) : string :=
  match r with
  | Ok (JString s) => String "d" s
  | Ok _ => "n"
  | Error e =>
      String "e" (status_text (ActionError.status e) ++ ActionError.type e
                  ++ "|" ++ ActionError.message e)
  end.

Definition parse (s : string) : option ActionResult :=
  match s with
  | String "d" s' => Some (Ok (JString s'))
  | String "e" (String a (String b (String c rest))) =>
      match split_on "|"%char rest with
      | [type; message] =>
          Some (Error (ActionError.make type
                         (Z.of_nat (100 * digit_value a + 10 * digit_value b
                                    + digit_value c))
                         message))
      | _ => None
      end
  | _ => None
  end.

Definition parse_pair (s : string) : string * string :=
  match split_on "="%char s with
  | k :: v :: _ => (k, v)
  | [k] => (k, EmptyString)
  | [] => (EmptyString, EmptyString)
  end.

Definition parse_form (request : Request.t) : option FormData :=
  match Request.body request with
  | Some [] => Some []
  | Some bytes => Some (map parse_pair (split_on "&"%char (string_of_list_byte bytes)))
  | None => None
  end.

Fixpoint join_query (entries : Entries) : string :=
  match entries with
  | [] => EmptyString
  | [(k, v)] => k ++ "=" ++ v
  | (k, v) :: rest => k ++ "=" ++ v ++ "&" ++ join_query rest
  end.

(** An action that succeeds... *)
Definition like : Action := fun _ _ => Return (JString "liked").

(** ...and one that fails with a declared status. *)
Definition reject : Action :=
  fun _ _ => Throw (ThrownActionError (ActionError.make "BAD_REQUEST" 400 "no")).

Definition registry (name : string) : option Action :=
  if String.eqb name "like" then Some like
  else if String.eqb name "reject" then Some reject
  else None.

Definition platform_with (form_parser : Request.t -> option FormData)
  : Platform := {|
  Key := unit;
  actionKey := tt;
  encrypt := fun _ iv data => (iv ++ data)%list;
  decrypt := fun _ iv data => strip_prefix iv data;
  encoder_encode := list_byte_of_string;
  decoder_decode := string_of_list_byte;
  JSON_stringify := stringify;
  JSON_parse := parse;
  getAction := registry;
  hasContentType := fun contentType expected => existsb (String.eqb contentType) expected;
  formContentTypes := ["application/x-www-form-urlencoded"; "multipart/form-data"];
  getActionQueryString := fun name => "?__action=" ++ name;
  request_formData := form_parser;
  redirect := fun location => Response.make 302 EmptyString [("Location", location)] None;
  href := fun u => URL.base u ++ "?" ++ join_query (URL.searchParams u)
|}.

Definition platform : Platform := platform_with parse_form.

(** The same platform in front of bodies it cannot parse as forms. *)
Definition unparsed : Platform := platform_with (fun _ => None).

(** A world without a context, whose random source counts upwards. *)
Definition fresh : World := {|
  locals := {| _actionsInternal := None |};
  heap := [];
  written := untouched;
  storage := None;
  entropy := fun n => u8 (N.of_nat n);
  drawn := 0;
  trace := []
|}.

(** The same world after a first pass installed the no-result stub. *)
Definition installed : World :=
  with_locals
    {| _actionsInternal :=
         Some {| value := LocalsStub; writable := false;
                 enumerable := false; configurable := false |} |} fresh.

Definition page : Response.t := Response.make 200 "OK" [("content-type", "text/html")] (Some []).

(** A downstream that renders [page]. *)
Definition render : M Response.t := ret page.

Definition form_headers : Entries := [("content-type", "application/x-www-form-urlencoded")].

Definition context_of (method : string) (headers : Entries)
    (body : option (list byte)) (query : Entries) : APIContext :=
  {| request := Request.make method headers body;
     url := URL.make "https://example.com/page" query |}.

Definition form_body : option (list byte) := Some (list_byte_of_string "x=1").

(** The envelopes of the results of [like] and of [reject] under the
    first twelve bytes of the random source of [fresh]. *)
Definition like_envelope : string :=
  "000102030405060708090a0bAAECAwQFBgcICQoLZGxpa2Vk".

Definition reject_envelope : string :=
  "000102030405060708090a0bAAECAwQFBgcICQoLZTQwMEJBRF9SRVFVRVNUfG5v".

End Demo.

(** ** Notions for the further properties *)

(** How many entries are named [name]. *)
Definition occurrences (name : string) (entries : Entries) : nat :=
  List.length (filter (fun kv => String.eqb (fst kv) name) entries).

(** A computation leaves the store of [ApiContextStorage] as it found it. *)
Definition restores {A : Type} (m : M A) : Prop :=
  forall w, storage (snd (m w)) = storage w.

(** Two continuations do the same wherever the store is [context]. *)
Definition agree_under (context : APIContext) (next next' : M Response.t) : Prop :=
  forall w, storage w = Some context -> next w = next' w.

(** The kinds of steps in a trace, and how often a kind occurs. *)
Inductive Kind : Type := Lookup | Call | Install | Warning | Logging.

Definition kind_of (ev : Event) : Kind :=
  match ev with
  | GetAction _ => Lookup
  | CallAction _ _ => Call
  | DefineProperty _ => Install
  | ConsoleWarn _ => Warning
  | ConsoleLog _ => Logging
  end.

Definition same_kind (a b : Kind) : bool :=
  match a, b with
  | Lookup, Lookup | Call, Call | Install, Install
  | Warning, Warning | Logging, Logging => true
  | _, _ => false
  end.

Definition weight (k k' : Kind) : nat := if same_kind k k' then 1 else 0.

Definition occurs (k : Kind) (t : list Event) : nat :=
  List.length (filter (fun ev => same_kind k (kind_of ev)) t).

(** A computation adds at most [n] steps of kind [k] to the trace. *)
Definition adds_at_most {A : Type} (k : Kind) (n : nat) (m : M A) : Prop :=
  forall w, occurs k (trace (snd (m w))) <= occurs k (trace w) + n.
(** * Facts about the encodings *)

Lemma u8_to_N (b : byte) : u8 (Byte.to_N b) = b.
Proof.
  unfold u8. rewrite <- ascii_of_byte_via_N. apply byte_of_ascii_of_byte.
Qed.

Lemma to_N_lt_256 (b : byte) : (Byte.to_N b < 256)%N.
Proof. pose proof (Byte.to_N_bounded b). lia. Qed.

Lemma slice_to_app (a b : string) :
  slice_to (String.length a) (a ++ b) = a.
Proof. induction a as [|c a IH]; simpl; [now destruct b | now rewrite IH]. Qed.

Lemma slice_from_app (a b : string) :
  slice_from (String.length a) (a ++ b) = b.
Proof. induction a as [|c a IH]; simpl; auto. Qed.

Lemma slice_to_from (n : nat) (s : string) :
  slice_to n s ++ slice_from n s = s.
Proof.
  revert s; induction n as [|n IH]; intros [|c s]; simpl; auto.
  now rewrite IH.
Qed.

Module HexFacts.
Import Hex.

Lemma byte_roundtrip (b : byte) :
  decodeHex (String (digit (N.shiftr (Byte.to_N b) 4))
               (String (digit (N.land (Byte.to_N b) 15)) EmptyString))
  = Some [b].
Proof. destruct b; reflexivity. Qed.

Lemma decodeHex_cons (c1 c2 : ascii) (rest : string) (b : byte) (bs : list byte) :
  decodeHex (String c1 (String c2 EmptyString)) = Some [b] ->
  decodeHex rest = Some bs ->
  decodeHex (String c1 (String c2 rest)) = Some (b :: bs).
Proof.
  simpl. destruct (value c1), (value c2); try discriminate.
  intros H ->. now inversion H.
Qed.

Lemma decodeHex_encodeHex (data : list byte) :
  decodeHex (encodeHex data) = Some data.
Proof.
  induction data as [|b rest IH]; [reflexivity|].
  cbn [encodeHex]. apply decodeHex_cons; [apply byte_roundtrip | exact IH].
Qed.

Lemma length_encodeHex (data : list byte) :
  String.length (encodeHex data) = 2 * List.length data.
Proof. induction data as [|b rest IH]; simpl; [reflexivity | lia]. Qed.

End HexFacts.

(** ** Bit arithmetic on small naturals *)

Section BitArith.
Local Open Scope N_scope.

Lemma lor_shiftl_add (hi lo k : N) :
  lo < 2 ^ k -> N.lor (N.shiftl hi k) lo = hi * 2 ^ k + lo.
Proof.
  intros H. rewrite N.shiftl_mul_pow2.
  rewrite <- N.lxor_lor, <- N.add_nocarry_lxor; auto.
  all: apply N.bits_inj; intro n; rewrite N.land_spec, N.bits_0.
  all: destruct (N.lt_ge_cases n k) as [Hn|Hn].
  all: try (rewrite N.mul_pow2_bits_low by assumption; reflexivity).
  all: destruct (N.eq_dec lo 0) as [->|Hz]; [rewrite N.bits_0; apply andb_false_r|].
  all: rewrite (N.bits_above_log2 lo n); [apply andb_false_r|].
  all: apply N.log2_lt_pow2 in H; lia.
Qed.

Lemma land_3 (x : N) : N.land x 3 = x mod 4.
Proof. exact (N.land_ones x 2). Qed.

Lemma land_15 (x : N) : N.land x 15 = x mod 16.
Proof. exact (N.land_ones x 4). Qed.

Lemma land_63 (x : N) : N.land x 63 = x mod 64.
Proof. exact (N.land_ones x 6). Qed.

(** Checking a boolean property of every number below a bound. *)
Lemma forall_below (P : N -> bool) (k : nat) :
  forallb P (map N.of_nat (seq 0 k)) = true ->
  forall n, n < N.of_nat k -> P n = true.
Proof.
  intros H n Hn. rewrite forallb_forall in H. apply H.
  apply in_map_iff. exists (N.to_nat n). split; [apply N2Nat.id|].
  apply in_seq. lia.
Qed.

End BitArith.

Ltac div_mod_lia := zify; Z.to_euclidean_division_equations; lia.

(** Induction over a list three elements at a time. *)
Lemma list_ind3 {A : Type} (P : list A -> Prop) :
  P [] -> (forall a, P [a]) -> (forall a b, P [a; b]) ->
  (forall a b c l, P l -> P (a :: b :: c :: l)) ->
  forall l, P l.
Proof.
  intros H0 H1 H2 H3. fix IH 1.
  intros [|a [|b [|c l]]].
  - exact H0.
  - apply H1.
  - apply H2.
  - apply H3, IH.
Qed.

Module Base64Facts.
Import Base64.
Local Open Scope N_scope.

Lemma value_char (n : N) : n < 64 -> value (char n) = Some n.
Proof.
  intros H.
  pose (P := fun n => match value (char n) with
                      | Some m => N.eqb m n | None => false end).
  assert (HP : P n = true) by (apply (forall_below P 64); [now vm_compute | exact H]).
  unfold P in HP. destruct (value (char n)); [|discriminate].
  apply N.eqb_eq in HP. now subst.
Qed.

Lemma char_not_pad (n : N) : n < 64 -> (char n =? pad)%char = false.
Proof.
  intros H.
  apply (forall_below (fun n => negb (char n =? pad)%char) 64) in H;
    [|now vm_compute].
  now apply negb_true_iff in H.
Qed.

Lemma sextet0_eq (a : N) : sextet0 a = a / 4.
Proof. unfold sextet0. now rewrite N.shiftr_div_pow2. Qed.

Lemma sextet1_eq (a b : N) :
  b < 256 -> sextet1 a b = (a mod 4) * 16 + b / 16.
Proof.
  intros Hb. unfold sextet1. rewrite land_3, N.shiftr_div_pow2, lor_shiftl_add.
  - reflexivity.
  - change (2 ^ 4) with 16. div_mod_lia.
Qed.

Lemma sextet2_eq (b c : N) :
  c < 256 -> sextet2 b c = (b mod 16) * 4 + c / 64.
Proof.
  intros Hc. unfold sextet2. rewrite land_15, N.shiftr_div_pow2, lor_shiftl_add.
  - reflexivity.
  - change (2 ^ 6) with 64. change (2 ^ 2) with 4. div_mod_lia.
Qed.

Lemma sextet3_eq (c : N) : sextet3 c = c mod 64.
Proof. apply land_63. Qed.

Lemma sextet0_lt (a : N) : a < 256 -> sextet0 a < 64.
Proof. intros Ha. rewrite sextet0_eq. div_mod_lia. Qed.

Lemma sextet1_lt (a b : N) : b < 256 -> sextet1 a b < 64.
Proof. intros Hb. rewrite sextet1_eq by assumption. div_mod_lia. Qed.

Lemma sextet2_lt (b c : N) : c < 256 -> sextet2 b c < 64.
Proof. intros Hc. rewrite sextet2_eq by assumption. div_mod_lia. Qed.

Lemma sextet3_lt (c : N) : sextet3 c < 64.
Proof. rewrite sextet3_eq. div_mod_lia. Qed.

Lemma octet0_eq (a b : N) :
  a < 256 -> b < 256 -> octet0 (sextet0 a) (sextet1 a b) = u8 a.
Proof.
  intros Ha Hb. unfold octet0. rewrite sextet0_eq, sextet1_eq by assumption.
  rewrite N.shiftr_div_pow2, lor_shiftl_add.
  - f_equal. change (2 ^ 2) with 4. change (2 ^ 4) with 16. div_mod_lia.
  - change (2 ^ 2) with 4. change (2 ^ 4) with 16. div_mod_lia.
Qed.

Lemma octet1_eq (a b c : N) :
  b < 256 -> c < 256 -> octet1 (sextet1 a b) (sextet2 b c) = u8 b.
Proof.
  intros Hb Hc. unfold octet1. rewrite sextet1_eq, sextet2_eq by assumption.
  rewrite land_15, N.shiftr_div_pow2, lor_shiftl_add.
  - f_equal. change (2 ^ 2) with 4. change (2 ^ 4) with 16. div_mod_lia.
  - change (2 ^ 2) with 4. change (2 ^ 4) with 16. div_mod_lia.
Qed.

Lemma octet2_eq (b c : N) :
  c < 256 -> octet2 (sextet2 b c) (sextet3 c) = u8 c.
Proof.
  intros Hc. unfold octet2. rewrite sextet2_eq, sextet3_eq by assumption.
  rewrite land_3, lor_shiftl_add.
  - f_equal. change (2 ^ 6) with 64. div_mod_lia.
  - change (2 ^ 6) with 64. div_mod_lia.
Qed.

Lemma last_value_char (n : N) : n < 64 -> last_value (char n) = Some (n, 0).
Proof.
  intros H. unfold last_value. now rewrite (char_not_pad _ H), (value_char _ H).
Qed.

Lemma last_value_pad : last_value pad = Some (0, 1).
Proof. reflexivity. Qed.

Lemma is_empty_encode (data : list byte) :
  is_empty (encode data) = match data with [] => true | _ => false end.
Proof. now destruct data as [|a [|b [|c rest]]]. Qed.

Lemma base64_decode_encode (data : list byte) : decode (encode data) = Some data.
Proof.
  assert (H0 : 0 < 256) by reflexivity.
  induction data as [|a|a b|a b c rest IH] using list_ind3.
  - reflexivity.
  - cbn [encode decode is_empty].
    pose proof (to_N_lt_256 a) as Ha.
    rewrite (last_value_char _ (sextet0_lt _ Ha)), (last_value_char _ (sextet1_lt _ _ H0)).
    rewrite last_value_pad. cbn [N.add N.ltb N.compare Pos.add Pos.compare
                                   Pos.compare_cont Pos.succ app].
    now rewrite (octet0_eq _ _ Ha H0), u8_to_N.
  - cbn [encode decode is_empty].
    pose proof (to_N_lt_256 a) as Ha. pose proof (to_N_lt_256 b) as Hb.
    rewrite (last_value_char _ (sextet0_lt _ Ha)), (last_value_char _ (sextet1_lt _ _ Hb)).
    rewrite (last_value_char _ (sextet2_lt _ _ H0)), last_value_pad.
    cbn [N.add N.ltb N.compare Pos.add Pos.compare Pos.compare_cont Pos.succ app].
    now rewrite (octet0_eq _ _ Ha Hb), (octet1_eq _ _ _ Hb H0), !u8_to_N.
  - cbn [encode decode].
    pose proof (to_N_lt_256 a) as Ha. pose proof (to_N_lt_256 b) as Hb.
    pose proof (to_N_lt_256 c) as Hc.
    rewrite is_empty_encode. destruct rest as [|d rest].
    + rewrite (last_value_char _ (sextet0_lt _ Ha)),
        (last_value_char _ (sextet1_lt _ _ Hb)),
        (last_value_char _ (sextet2_lt _ _ Hc)), (last_value_char _ (sextet3_lt _)).
      cbn [N.add N.ltb N.compare Pos.add Pos.compare Pos.compare_cont Pos.succ app].
      now rewrite (octet0_eq _ _ Ha Hb), (octet1_eq _ _ _ Hb Hc),
        (octet2_eq _ _ Hc), !u8_to_N.
    + rewrite (value_char _ (sextet0_lt _ Ha)), (value_char _ (sextet1_lt _ _ Hb)).
      rewrite (value_char _ (sextet2_lt _ _ Hc)), (value_char _ (sextet3_lt _)).
      rewrite IH.
      now rewrite (octet0_eq _ _ Ha Hb), (octet1_eq _ _ _ Hb Hc),
        (octet2_eq _ _ Hc), !u8_to_N.
Qed.

End Base64Facts.

(** * Facts about computations *)

Lemma length_draw (n : nat) (w : World) : List.length (draw n w) = n.
Proof. unfold draw. now rewrite length_map, length_seq. Qed.

Lemma defineProperty_fresh (v : ActionsInternal) (w : World) :
  _actionsInternal (locals w) = None ->
  Object_defineProperty v w = (Return tt, install v w).
Proof. intros H. unfold Object_defineProperty. now rewrite H. Qed.

Lemma install_locals (v : ActionsInternal) (w : World) :
  _actionsInternal (locals (install v w)) = Some (frozen v).
Proof. reflexivity. Qed.

Lemma strip_prefix_app (p l : list byte) :
  Demo.strip_prefix p (p ++ l)%list = Some l.
Proof.
  induction p as [|x p IH]; simpl; [reflexivity|].
  destruct (Byte.eqb x x) eqn:E; [exact IH|].
  apply Byte.eqb_false in E. congruence.
Qed.

Lemma demo_aead_correct : @aead_correct Demo.platform.
Proof. intros iv data. apply strip_prefix_app. Qed.

(** * The result codec *)

Section Codec.
Context {P : Platform}.

Lemma slice_envelope (iv : list byte) (r : ActionResult) :
  List.length iv = 12 ->
  slice_to 24 (envelope iv r) = Hex.encodeHex iv /\
  slice_from 24 (envelope iv r)
  = Base64.encode (encrypt actionKey iv (encoder_encode (JSON_stringify r))).
Proof.
  intros Hlen. unfold envelope.
  assert (H24 : 24 = String.length (Hex.encodeHex iv))
    by (rewrite HexFacts.length_encodeHex, Hlen; reflexivity).
  rewrite H24 at 1 2. split; [apply slice_to_app | apply slice_from_app].
Qed.

Lemma encodeResult_eq (r : ActionResult) (w : World) :
  encodeResult r w = (Return (envelope (draw 12 w) r), with_drawn (drawn w + 12) w).
Proof. reflexivity. Qed.

Lemma decodeResult_envelope (iv : list byte) (r : ActionResult) (w : World) :
  aead_correct -> text_lossless (JSON_stringify r) -> JSON_serializable r ->
  List.length iv = 12 ->
  decodeResult (envelope iv r) w = (Return r, w).
Proof.
  intros Haead Htext Hjson Hlen.
  destruct (slice_envelope iv r Hlen) as [Hto Hfrom].
  unfold decodeResult, bind.
  rewrite Hto, Hfrom, HexFacts.decodeHex_encodeHex. cbn [orThrow ret].
  rewrite Base64Facts.base64_decode_encode. cbn [orThrow ret].
  rewrite Haead. cbn [orThrow ret].
  rewrite Htext, Hjson. reflexivity.
Qed.

End Codec.

(** * Query parameters *)

Lemma get_delete_other (k name : string) (entries : Entries) :
  k <> name -> entries_get k (entries_delete name entries) = entries_get k entries.
Proof.
  intros Hk. induction entries as [|[k' v'] rest IH]; [reflexivity|].
  simpl. destruct (String.eqb k' name) eqn:E.
  - apply String.eqb_eq in E. subst k'.
    destruct (String.eqb name k) eqn:E'; [|exact IH].
    apply String.eqb_eq in E'. congruence.
  - simpl. now rewrite IH.
Qed.

Lemma get_set_same (name v : string) (entries : Entries) :
  entries_get name (entries_set name v entries) = Some v.
Proof.
  induction entries as [|[k' v'] rest IH]; simpl.
  - now rewrite String.eqb_refl.
  - destruct (String.eqb k' name) eqn:E; simpl.
    + now rewrite String.eqb_refl.
    + now rewrite E.
Qed.

Lemma get_set_other (k name v : string) (entries : Entries) :
  k <> name -> entries_get k (entries_set name v entries) = entries_get k entries.
Proof.
  intros Hk. induction entries as [|[k' v'] rest IH]; simpl.
  - destruct (String.eqb name k) eqn:E; [|reflexivity].
    apply String.eqb_eq in E. congruence.
  - destruct (String.eqb k' name) eqn:E; simpl.
    + apply String.eqb_eq in E. subst k'.
      destruct (String.eqb name k) eqn:E'.
      * apply String.eqb_eq in E'. congruence.
      * now apply get_delete_other.
    + now rewrite IH.
Qed.

Lemma truthy_the (v : option string) :
  truthy v = true -> v = Some (the v) /\ the v <> EmptyString.
Proof. destruct v as [[|c s]|]; simpl; try discriminate. now split. Qed.

Lemma truthy_Some (s : string) : s <> EmptyString -> truthy (Some s) = true.
Proof. destruct s; [congruence | reflexivity]. Qed.

(** * The dispatcher *)

Section Dispatch.
Context {P : Platform}.
Variables (context : APIContext) (next : M Response.t) (w : World).
Hypothesis Hfresh : _actionsInternal (locals w) = None.


Lemma onRequest_get_result :
  Request.method (request context) = "GET" ->
  truthy (searchParam context "__action") = true ->
  truthy (searchParam context "__result") = true ->
  onRequest context next w
  = (actionResult <- decodeResult (the (searchParam context "__result")) ;;
     handleResult context next (the (searchParam context "__action")) actionResult) w.
Proof.
  intros Hm Ha Hr. unfold onRequest. rewrite Hfresh, Hm.
  now rewrite Ha, Hr.
Qed.

Lemma onRequest_post_action :
  Request.method (request context) = "POST" ->
  truthy (searchParam context "__action") = true ->
  onRequest context next w
  = handlePost context next (the (searchParam context "__action")) w.
Proof.
  intros Hm Ha. unfold onRequest. rewrite Hfresh, Hm.
  now rewrite Ha.
Qed.

Lemma onRequest_get_action :
  Request.method (request context) = "GET" ->
  truthy (searchParam context "__action") = true ->
  truthy (searchParam context "__result") = false ->
  onRequest context next w = (Throw invoked_with_get, w).
Proof.
  intros Hm Ha Hr. unfold onRequest. rewrite Hfresh, Hm.
  now rewrite Ha, Hr.
Qed.

Lemma onRequest_post_legacy :
  Request.method (request context) = "POST" ->
  truthy (searchParam context "__action") = false ->
  onRequest context next w = handlePostLegacy context next w.
Proof.
  intros Hm Ha. unfold onRequest. rewrite Hfresh, Hm.
  now rewrite Ha.
Qed.

Lemma onRequest_otherwise :
  Request.method (request context) <> "POST" ->
  truthy (searchParam context "__action") = false ->
  onRequest context next w = nextWithLocalsStub next context w.
Proof.
  intros Hm Ha. unfold onRequest. rewrite Hfresh. rewrite Ha.
  rewrite !andb_false_r.
  destruct (String.eqb_spec (Request.method (request context)) "POST"); [congruence|].
  reflexivity.
Qed.

Lemma nextWithStaticStub_fresh :
  nextWithStaticStub next context w
  = ApiContextStorage_run context next (install StaticStub w).
Proof.
  unfold nextWithStaticStub, bind. now rewrite (defineProperty_fresh _ _ Hfresh).
Qed.

Lemma nextWithLocalsStub_fresh :
  nextWithLocalsStub next context w
  = ApiContextStorage_run context next (install LocalsStub w).
Proof.
  unfold nextWithLocalsStub, bind. now rewrite (defineProperty_fresh _ _ Hfresh).
Qed.

Lemma handleResult_fresh (actionName : string) (actionResult : ActionResult) :
  handleResult context next actionName actionResult w
  = ApiContextStorage_run context
      (response <- next ;; deliver (List.length (heap w)) actionResult response)
      (install (ResultContext actionName (List.length (heap w)))
         (sharing actionResult w)).
Proof.
  unfold handleResult, bind at 1 2. cbn [share].
  now rewrite (defineProperty_fresh _ (sharing actionResult w) Hfresh).
Qed.

End Dispatch.

(** The form data the handlers pass to the action. *)
Lemma formDataOf_eq {P : Platform} (request : Request.t) (w : World) :
  (form_like request = true -> request_formData request <> None) ->
  formDataOf request w
  = (Return (if form_like request then request_formData request else None), w).
Proof.
  intros Hform. unfold formDataOf.
  destruct (form_like request); [|reflexivity].
  destruct (request_formData request) as [fd|]; [reflexivity|].
  now destruct Hform.
Qed.

Lemma world_eq (w1 w2 : World) :
  locals w1 = locals w2 -> heap w1 = heap w2 -> written w1 = written w2 ->
  storage w1 = storage w2 -> entropy w1 = entropy w2 ->
  drawn w1 = drawn w2 -> trace w1 = trace w2 -> w1 = w2.
Proof. destruct w1, w2; simpl; intros; now subst. Qed.

(** * The store *)

Lemma nth_length_app {A : Type} (l : list A) (a d : A) :
  nth (List.length l) (l ++ [a]) d = a.
Proof. induction l as [|x l IH]; [reflexivity | exact IH]. Qed.

(** A result object that just entered the store is as built, also
    behind an installation. *)
Lemma current_sharing (r built : ActionResult) (w : World) :
  current (List.length (heap w)) built (sharing r w) = r.
Proof. unfold current, sharing. cbn [heap with_heap]. apply nth_length_app. Qed.


(** * The response after downstream *)

Lemma Response_new_presentable (e : ActionError.t) (response : Response.t) (w : World) :
  presentable e (Response.body response) = true ->
  Response_new (Response.body response) (ActionError.status e) (ActionError.type e)
    (Response.headers response) w
  = (Return (Response.make (ActionError.status e) (ActionError.type e)
               (Response.headers response) (Response.body response)), w).
Proof.
  unfold presentable, Response_new. intros H.
  apply andb_prop in H as [H Hbody]. apply andb_prop in H as [Hrange Hphrase].
  assert (Hsame : unsigned_short (ActionError.status e) = ActionError.status e).
  { unfold unsigned_short. apply Z.mod_small. lia. }
  rewrite Hsame, Hrange, Hphrase. cbn [negb].
  destruct (Response.body response); [|reflexivity].
  apply negb_true_iff in Hbody. now rewrite Hbody.
Qed.

Lemma Response_new_world (body : option (list byte)) (status : Z)
    (statusText : string) (headers : Entries) (w : World) :
  snd (Response_new body status statusText headers w) = w.
Proof.
  unfold Response_new.
  destruct (negb _); [reflexivity|]. destruct (negb _); [reflexivity|].
  destruct body; [|reflexivity]. now destruct (null_body_status _).
Qed.

(** What the constructor returns has the headers and the body it was
    given. *)
Lemma Response_new_returns (body : option (list byte)) (status : Z)
    (statusText : string) (headers : Entries) (w w' : World) (final : Response.t) :
  Response_new body status statusText headers w = (Return final, w') ->
  final = Response.make (unsigned_short status) statusText headers body /\
  (200 <= unsigned_short status <= 599)%Z.
Proof.
  unfold Response_new.
  destruct ((200 <=? unsigned_short status) && (unsigned_short status <=? 599))%Z
    eqn:Hrange; cbn [negb]; [|discriminate].
  destruct (negb _); [discriminate|].
  assert (Hr : (200 <= unsigned_short status <= 599)%Z) by lia.
  destruct body; [destruct (null_body_status _); [discriminate|]|];
    intros [= <- _]; now split.
Qed.

Lemma withErrorStatus_world (r : ActionResult) (response : Response.t) (w : World) :
  snd (withErrorStatus r response w) = w.
Proof.
  unfold withErrorStatus. destruct (error r); [apply Response_new_world | reflexivity].
Qed.

Lemma deliver_world (shared : Ref) (built : ActionResult) (response : Response.t)
    (w : World) :
  snd (deliver shared built response w) = w.
Proof. unfold deliver, bind, read. apply withErrorStatus_world. Qed.

Lemma deliver_eq (shared : Ref) (built : ActionResult) (response : Response.t)
    (w : World) :
  deliver shared built response w
  = withErrorStatus (current shared built w) response w.
Proof. reflexivity. Qed.

(** A response [handleResult] builds itself has the headers and the
    body of the downstream one. *)
Lemma withErrorStatus_returns (r : ActionResult) (response final : Response.t)
    (w w' : World) :
  withErrorStatus r response w = (Return final, w') ->
  Response.headers final = Response.headers response /\
  Response.body final = Response.body response /\
  (error r = None -> final = response) /\
  (forall e, error r = Some e ->
     Response.status final = unsigned_short (ActionError.status e) /\
     Response.statusText final = ActionError.type e).
Proof.
  unfold withErrorStatus. destruct (error r) as [e|].
  - intros H. apply Response_new_returns in H as [-> _].
    split; [reflexivity|]. split; [reflexivity|]. split; [discriminate|].
    intros e' [= <-]. now split.
  - intros [= <- _].
    split; [reflexivity|]. split; [reflexivity|]. split; [reflexivity|].
    discriminate.
Qed.

Lemma decodeResult_world {P : Platform} (encodedResult : string) (w : World) :
  snd (decodeResult encodedResult w) = w.
Proof.
  unfold decodeResult, bind, orThrow, ret, throw.
  destruct (Hex.decodeHex _); [|reflexivity].
  destruct (Base64.decode _); [|reflexivity].
  destruct (decrypt _ _ _); [|reflexivity].
  now destruct (JSON_parse _).
Qed.

Lemma decodeResult_throws {P : Platform} (encodedResult : string) (w : World)
    (e : Thrown) :
  fst (decodeResult encodedResult w) = Throw e ->
  e = JsError "Error" "Invalid character" \/
  e = JsError "OperationError" "The operation failed for an operation-specific reason" \/
  e = JsError "SyntaxError" "Unexpected token in JSON".
Proof.
  unfold decodeResult, bind, orThrow, ret, throw.
  destruct (Hex.decodeHex _); [|cbn; intros [= <-]; now left].
  destruct (Base64.decode _); [|cbn; intros [= <-]; now left].
  destruct (decrypt _ _ _); [|cbn; intros [= <-]; right; now left].
  destruct (JSON_parse _); [discriminate|cbn; intros [= <-]; right; now right].
Qed.

(** * The handlers, path by path *)

Section Handlers.
Context {P : Platform}.
Variables (context : APIContext) (next : M Response.t) (w : World).

Lemma handlePost_redirects (actionName : string) (action : Action) (body : list byte) :
  Request.body (request context) = Some body ->
  getAction actionName = Some action ->
  (form_like (request context) = true -> request_formData (request context) <> None) ->
  let fd := if form_like (request context) then request_formData (request context) else None in
  let result := captured (action (Some context) fd) in
  let redirectUrl :=
    URL.make (URL.base (url context))
      (entries_set "__result" (envelope (draw 12 w) result)
         (URL.searchParams (url context))) in
  handlePost context next actionName w
  = (Return (redirect (href redirectUrl)),
     with_drawn (drawn w + 12)
       (with_trace
          (trace w ++ [GetAction actionName; CallAction actionName fd;
                       ConsoleLog ("$$$redirect " ++ href redirectUrl)])%list w)).
Proof.
  intros Hb Hreg Hform fd result redirectUrl.
  unfold handlePost. rewrite Hb.
  unfold lookup, bind at 1 2. cbn [emit ret]. rewrite Hreg.
  unfold bind at 1. rewrite (formDataOf_eq _ _ Hform). fold fd.
  unfold bind, ApiContextStorage_run, callSafely, call, emit, encodeResult,
    getRandomValues, ret. cbn.
  f_equal. apply world_eq; cbn; try reflexivity.
  now rewrite <- !app_assoc.
Qed.

Lemma handlePost_not_found (actionName : string) (body : list byte) :
  Request.body (request context) = Some body ->
  getAction actionName = None ->
  handlePost context next actionName w
  = (Throw (not_found actionName),
     with_trace (trace w ++ [GetAction actionName])%list w).
Proof.
  intros Hb Hreg. unfold handlePost. rewrite Hb.
  unfold lookup, bind. cbn [emit ret]. now rewrite Hreg.
Qed.

Lemma handlePost_cannot_parse (actionName : string) (action : Action)
    (body : list byte) :
  Request.body (request context) = Some body ->
  getAction actionName = Some action ->
  form_like (request context) = true ->
  request_formData (request context) = None ->
  handlePost context next actionName w
  = (Throw cannot_parse, with_trace (trace w ++ [GetAction actionName])%list w).
Proof.
  intros Hb Hreg Hlike Hfd. unfold handlePost. rewrite Hb.
  unfold lookup, bind at 1 2. cbn [emit ret]. rewrite Hreg.
  unfold bind at 1, formDataOf. now rewrite Hlike, Hfd.
Qed.

Hypothesis Hfresh : _actionsInternal (locals w) = None.

Lemma handlePostLegacy_invokes (body : list byte) (fd : FormData)
    (actionName : string) (action : Action) :
  Request.body (request context) = Some body ->
  form_like (request context) = true ->
  request_formData (request context) = Some fd ->
  entries_get "__action" fd = Some actionName ->
  actionName <> EmptyString ->
  getAction actionName = Some action ->
  let result := captured (action (Some context) (Some fd)) in
  let called :=
    with_trace (trace w ++ [GetAction actionName;
                            CallAction actionName (Some fd)])%list w in
  handlePostLegacy context next w
  = ApiContextStorage_run context
      (response <- next ;; deliver (List.length (heap w)) result response)
      (install (ResultContext actionName (List.length (heap w)))
         (sharing result called)).
Proof.
  intros Hb Hlike Hfd Hfield Hne Hreg result called.
  unfold handlePostLegacy. rewrite Hb.
  unfold bind at 1. unfold formDataOf. rewrite Hlike, Hfd. cbn [orThrow ret bind].
  rewrite Hfield, (truthy_Some _ Hne). cbn [negb the].
  unfold lookup, bind at 1 2. cbn [emit ret]. rewrite Hreg.
  unfold bind at 1.
  assert (Hcall : ApiContextStorage_run context
                    (callSafely (call actionName action (Some fd)))
                    (with_trace (trace w ++ [GetAction actionName])%list w)
                  = (Return result, called)).
  { unfold ApiContextStorage_run, callSafely, call, bind, emit. cbn.
    f_equal. apply world_eq; cbn; try reflexivity. now rewrite <- app_assoc. }
  rewrite Hcall.
  exact (handleResult_fresh context next called Hfresh actionName result).
Qed.

Lemma handlePostLegacy_stub (body : list byte) :
  Request.body (request context) = Some body ->
  form_like (request context) = false \/
  (exists fd, request_formData (request context) = Some fd /\
              truthy (entries_get "__action" fd) = false) ->
  handlePostLegacy context next w
  = ApiContextStorage_run context next (install LocalsStub w).
Proof.
  intros Hb Hcase. unfold handlePostLegacy. rewrite Hb.
  unfold bind at 1, formDataOf.
  destruct Hcase as [Hlike | [fd [Hfd Hfield]]].
  - rewrite Hlike. cbn [ret]. now apply nextWithLocalsStub_fresh.
  - destruct (form_like (request context)).
    + rewrite Hfd. cbn [orThrow ret bind]. rewrite Hfield. cbn [negb].
      now apply nextWithLocalsStub_fresh.
    + cbn [ret]. now apply nextWithLocalsStub_fresh.
Qed.

Lemma handlePostLegacy_not_found (body : list byte) (fd : FormData) :
  Request.body (request context) = Some body ->
  form_like (request context) = true ->
  request_formData (request context) = Some fd ->
  truthy (entries_get "__action" fd) = true ->
  getAction (the (entries_get "__action" fd)) = None ->
  handlePostLegacy context next w
  = (Throw (not_found (the (entries_get "__action" fd))),
     with_trace (trace w ++ [GetAction (the (entries_get "__action" fd))])%list w).
Proof.
  intros Hb Hlike Hfd Hfield Hreg. unfold handlePostLegacy. rewrite Hb.
  unfold bind at 1. unfold formDataOf. rewrite Hlike, Hfd. cbn [orThrow ret bind].
  rewrite Hfield. cbn [negb].
  unfold lookup, bind. cbn [emit ret]. now rewrite Hreg.
Qed.

Lemma handlePostLegacy_cannot_parse (body : list byte) :
  Request.body (request context) = Some body ->
  form_like (request context) = true ->
  request_formData (request context) = None ->
  handlePostLegacy context next w = (Throw cannot_parse, w).
Proof.
  intros Hb Hlike Hfd. unfold handlePostLegacy. rewrite Hb.
  unfold bind at 1. unfold formDataOf. now rewrite Hlike, Hfd.
Qed.

End Handlers.

(** * One installation per request *)

Lemma installs_app (t1 t2 : list Event) :
  installs (t1 ++ t2) = installs t1 + installs t2.
Proof. unfold installs. now rewrite filter_app, length_app. Qed.

Lemma calls_app (t1 t2 : list Event) : calls (t1 ++ t2) = calls t1 + calls t2.
Proof. unfold calls. now rewrite filter_app, length_app. Qed.

Lemma installs_install (v : ActionsInternal) (w : World) :
  installs (trace (install v w)) = installs (trace w) + 1.
Proof. unfold install. cbn [trace with_trace]. now rewrite installs_app. Qed.

(** What passes the downstream response on only reads. *)
Lemma post_reads (v : ActionsInternal) (post : Response.t -> M Response.t) :
  post = (fun response => ret response) \/
  (exists actionName shared built,
     v = ResultContext actionName shared /\ post = deliver shared built) ->
  forall response w, snd (post response w) = w.
Proof.
  intros [-> | [actionName [shared [built [_ ->]]]]] response w;
    [reflexivity | apply deliver_world].
Qed.

Lemma snd_bind_reads {A B : Type} (m : M A) (post : A -> M B) (w : World) :
  (forall a w0, snd (post a w0) = w0) ->
  snd ((a <- m ;; post a) w) = snd (m w).
Proof.
  intros Hpost. unfold bind. destruct (m w) as [[a|e] w']; [apply Hpost | reflexivity].
Qed.

Lemma bind_ret_r {A : Type} (m : M A) (w : World) :
  (a <- m ;; ret a) w = m w.
Proof. unfold bind, ret. now destruct (m w) as [[a|e] w']. Qed.


Section Frozen.
Variables (v : ActionsInternal) (w : World).
Hypothesis Hfrozen : _actionsInternal (locals w) = Some (frozen v).

Lemma assign_frozen (v' : ActionsInternal) : assign v' w = (Throw cannot_assign, w).
Proof. unfold assign. now rewrite Hfrozen. Qed.

Lemma defineProperty_frozen (v' : ActionsInternal) :
  Object_defineProperty v' w = (Throw cannot_redefine, w).
Proof. unfold Object_defineProperty. now rewrite Hfrozen. Qed.

Lemma delete_frozen : delete_property w = (Throw cannot_delete, w).
Proof. unfold delete_property. now rewrite Hfrozen. Qed.

End Frozen.

Lemma keeps_refl (v : ActionsInternal) (w : World) :
  _actionsInternal (locals w) = Some (frozen v) -> keeps v w w.
Proof. now repeat split. Qed.

Lemma keeps_trans (v : ActionsInternal) (w1 w2 w3 : World) :
  keeps v w1 w2 -> keeps v w2 w3 -> keeps v w1 w3.
Proof.
  intros [_ [Hi Hc]] [Hl [Hi' Hc']]. repeat split; [exact Hl | | ]; congruence.
Qed.

Lemma keeps_storage (v : ActionsInternal) (s s' : option APIContext) (w w' : World) :
  keeps v (with_storage s w) w' -> keeps v w (with_storage s' w').
Proof. intros H. exact H. Qed.

Section Exec.
Context {P : Platform}.

Lemma query_keeps (v : ActionsInternal) (actionFn : ActionRef) (w : World) :
  _actionsInternal (locals w) = Some (frozen v) ->
  keeps v w (snd (query actionFn w)).
Proof.
  intros Hf. unfold query. rewrite Hf. cbn [value frozen].
  destruct (getActionResult_written (written w)) as [g|]; [now apply keeps_refl|].
  destruct v as [actionName actionResult| |]; cbn [getActionResult].
  - destruct (negb _); now apply keeps_refl.
  - unfold keeps. cbn -[installs calls]. rewrite installs_app, calls_app.
    cbn. rewrite !Nat.add_0_r. now repeat split.
  - now apply keeps_refl.
Qed.

(** Reading and writing the members of the context object and of a
    result object leaves the property and the trace alone. *)
Lemma keeps_members (v : ActionsInternal) (w w' : World) :
  _actionsInternal (locals w) = Some (frozen v) ->
  locals w' = locals w -> trace w' = trace w -> keeps v w w'.
Proof. intros Hf Hl Ht. unfold keeps. now rewrite Hl, Ht. Qed.

Lemma get_actionResult_keeps (v : ActionsInternal) (w : World) :
  _actionsInternal (locals w) = Some (frozen v) ->
  keeps v w (snd (get_actionResult w)).
Proof.
  intros Hf. unfold get_actionResult. rewrite Hf.
  destruct (actionResult_written (written w)); now apply keeps_refl.
Qed.

Lemma set_getActionResult_keeps (v : ActionsInternal) (g : ActionRef -> JsValue)
    (w : World) :
  _actionsInternal (locals w) = Some (frozen v) ->
  keeps v w (snd (set_getActionResult g w)).
Proof.
  intros Hf. unfold set_getActionResult. rewrite Hf. now apply keeps_members.
Qed.

Lemma set_actionResult_keeps (v : ActionsInternal) (x : JsValue) (w : World) :
  _actionsInternal (locals w) = Some (frozen v) ->
  keeps v w (snd (set_actionResult x w)).
Proof.
  intros Hf. unfold set_actionResult. rewrite Hf. now apply keeps_members.
Qed.

(** Whatever downstream does, a frozen context stays in place, and no
    further installation or action call is made -- also across rewrites,
    which run the middleware again. *)
Lemma exec_keeps (d : Downstream) :
  forall (v : ActionsInternal) (w : World),
    _actionsInternal (locals w) = Some (frozen v) ->
    keeps v w (snd (exec d w)).
Proof.
  induction d as [response | e | actionFn k IH | k IH | g k IH | x k IH
                  | object k IH | object r k IH | v' k IH | v' k IH | k IH
                  | context rest IHrest k IH]; intros v w Hf; cbn [exec].
  - now apply keeps_refl.
  - now apply keeps_refl.
  - unfold attempt. pose proof (query_keeps v actionFn w Hf) as Hq.
    destruct (query actionFn w) as [o w']. cbn [snd] in Hq.
    apply (keeps_trans v w w'); [exact Hq|]. apply IH. apply Hq.
  - unfold attempt. pose proof (get_actionResult_keeps v w Hf) as Hq.
    destruct (get_actionResult w) as [o w']. cbn [snd] in Hq.
    apply (keeps_trans v w w'); [exact Hq|]. apply IH. apply Hq.
  - unfold attempt. pose proof (set_getActionResult_keeps v g w Hf) as Hq.
    destruct (set_getActionResult g w) as [o w']. cbn [snd] in Hq.
    apply (keeps_trans v w w'); [exact Hq|]. apply IH. apply Hq.
  - unfold attempt. pose proof (set_actionResult_keeps v x w Hf) as Hq.
    destruct (set_actionResult x w) as [o w']. cbn [snd] in Hq.
    apply (keeps_trans v w w'); [exact Hq|]. apply IH. apply Hq.
  - now apply IH.
  - unfold bind, mutate.
    apply (keeps_trans v w (with_heap (replace_nth object r (heap w)) w));
      [now apply keeps_members | now apply IH].
  - unfold attempt. rewrite (assign_frozen v w Hf). now apply IH.
  - unfold attempt. rewrite (defineProperty_frozen v w Hf). now apply IH.
  - unfold attempt. rewrite (delete_frozen v w Hf). now apply IH.
  - unfold attempt.
    assert (Hre : onRequest context (exec rest) w
                  = ApiContextStorage_run context (exec rest) w)
      by (unfold onRequest; now rewrite Hf).
    rewrite Hre. unfold ApiContextStorage_run.
    pose proof (IHrest v (with_storage (Some context) w) Hf) as Hrest.
    destruct (exec rest (with_storage (Some context) w)) as [o w']. cbn [snd] in Hrest.
    apply (keeps_trans v w (with_storage (storage w) w')).
    + now apply (keeps_storage v (Some context)).
    + apply IH. apply Hrest.
Qed.

Lemma hands_over_intro (context : APIContext) (w before : World)
    (v : ActionsInternal) (post : Response.t -> M Response.t) :
  (forall next,
     onRequest context next w
     = ApiContextStorage_run context
         (response <- next ;; post response) (install v before)) ->
  post = (fun response => ret response) \/
  (exists actionName shared built,
     v = ResultContext actionName shared /\ post = deliver shared built) ->
  _actionsInternal (locals before) = None ->
  installs (trace before) = installs (trace w) ->
  hands_over context w.
Proof.
  intros Hrun Hpost Hnone Hcount. exists v, before, post.
  pose proof (install_locals v before) as Hf.
  split; [exact Hrun|]. split; [exact Hpost|].
  split; [exact Hnone|]. split; [exact Hcount|].
  split; [now rewrite installs_install, Hcount|].
  split; [exact Hf|].
  split; [intros v'; now apply (assign_frozen v)|].
  split; [intros v'; now apply (defineProperty_frozen v)|].
  split; [now apply (delete_frozen v)|].
  split.
  { intros g actionFn overwritten. subst overwritten.
    unfold set_getActionResult. rewrite Hf. cbn [fst snd].
    split; [reflexivity|]. split; [reflexivity|].
    unfold query. cbn [locals with_written]. now rewrite Hf. }
  intros d after. subst after. rewrite Hrun.
  unfold ApiContextStorage_run.
  pose proof (snd_bind_reads (exec d) post
                (with_storage (Some context) (install v before))
                (post_reads v post Hpost)) as Hsnd.
  pose proof (exec_keeps d v (with_storage (Some context) (install v before)) Hf)
    as [Hl [Hi _]].
  destruct ((response <- exec d ;; post response)
              (with_storage (Some context) (install v before))) as [o w'].
  cbn [snd] in Hsnd |- *. subst w'. cbn [locals trace with_storage].
  split; [now rewrite Hl|]. rewrite Hi. cbn [trace with_storage].
  now rewrite installs_install, Hcount.
Qed.

End Exec.

Section Paths.
Context {P : Platform}.
Variables (context : APIContext) (w : World).
Hypothesis Hfresh : _actionsInternal (locals w) = None.

Lemma stops_intro (o : Outcome Response.t) (w' : World) :
  (forall next, onRequest context next w = (o, w')) ->
  locals w' = locals w ->
  installs (trace w') = installs (trace w) ->
  stops context w.
Proof.
  intros Hrun Hl Hi. exists o, w'. split; [exact Hrun|].
  split; [now rewrite Hl | exact Hi].
Qed.

Lemma static_stub_hands_over :
  (forall next, onRequest context next w = nextWithStaticStub next context w) ->
  hands_over context w.
Proof.
  intros Hrun.
  apply (hands_over_intro context w w StaticStub (fun response => ret response));
    [|now left|exact Hfresh|reflexivity].
  intros next. rewrite Hrun, (nextWithStaticStub_fresh context next w Hfresh).
  unfold ApiContextStorage_run. now rewrite bind_ret_r.
Qed.

Lemma locals_stub_hands_over :
  (forall next, onRequest context next w = nextWithLocalsStub next context w) ->
  hands_over context w.
Proof.
  intros Hrun.
  apply (hands_over_intro context w w LocalsStub (fun response => ret response));
    [|now left|exact Hfresh|reflexivity].
  intros next. rewrite Hrun, (nextWithLocalsStub_fresh context next w Hfresh).
  unfold ApiContextStorage_run. now rewrite bind_ret_r.
Qed.

Lemma onRequest_other_method (next : M Response.t) :
  Request.method (request context) <> "GET" ->
  Request.method (request context) <> "POST" ->
  onRequest context next w = nextWithLocalsStub next context w.
Proof.
  intros Hg Hp. unfold onRequest. rewrite Hfresh.
  destruct (String.eqb_spec (Request.method (request context)) "GET"); [congruence|].
  destruct (String.eqb_spec (Request.method (request context)) "POST"); [congruence|].
  reflexivity.
Qed.

Ltac count_same :=
  cbn [trace with_trace with_drawn]; rewrite installs_app; cbn;
  now rewrite Nat.add_0_r.

Lemma get_result_classified :
  Request.method (request context) = "GET" ->
  truthy (searchParam context "__action") = true ->
  truthy (searchParam context "__result") = true ->
  match fst (decodeResult
               (the (searchParam context "__result")) w) with
  | Return _ => hands_over context w
  | Throw _ => stops context w
  end.
Proof.
  intros Hm Ha Hr.
  pose proof (decodeResult_world
                (the (searchParam context "__result")) w) as Hw.
  destruct (decodeResult
              (the (searchParam context "__result")) w)
    as [[actionResult|e] w0] eqn:Hdec; cbn [fst snd] in *; subst w0.
  - apply (hands_over_intro context w (sharing actionResult w)
             (ResultContext (the (searchParam context "__action"))
                (List.length (heap w)))
             (deliver (List.length (heap w)) actionResult));
      [|right; now exists (the (searchParam context "__action")),
                          (List.length (heap w)), actionResult
       |exact Hfresh|reflexivity].
    intros next. rewrite (onRequest_get_result context next w Hfresh Hm Ha Hr).
    unfold bind at 1. rewrite Hdec. now apply handleResult_fresh.
  - apply (stops_intro (Throw e) w); [|reflexivity|reflexivity].
    intros next. rewrite (onRequest_get_result context next w Hfresh Hm Ha Hr).
    unfold bind at 1. now rewrite Hdec.
Qed.

Lemma post_action_classified :
  Request.method (request context) = "POST" ->
  truthy (searchParam context "__action") = true ->
  match Request.body (request context) with
  | None => hands_over context w
  | Some _ => stops context w
  end.
Proof.
  intros Hm Ha.
  set (actionName := the (searchParam context "__action")).
  destruct (Request.body (request context)) as [body|] eqn:Hb.
  - destruct (getAction actionName) as [action|] eqn:Hreg.
    + destruct (form_like (request context)) eqn:Hlike;
        [destruct (request_formData (request context)) as [fd|] eqn:Hfd|].
      * eapply stops_intro.
        -- intros next. rewrite (onRequest_post_action context next w Hfresh Hm Ha).
           apply (handlePost_redirects context next w actionName action body Hb Hreg).
           rewrite Hfd. discriminate.
        -- reflexivity.
        -- count_same.
      * eapply stops_intro.
        -- intros next. rewrite (onRequest_post_action context next w Hfresh Hm Ha).
           exact (handlePost_cannot_parse context next w actionName action body
                    Hb Hreg Hlike Hfd).
        -- reflexivity.
        -- count_same.
      * eapply stops_intro.
        -- intros next. rewrite (onRequest_post_action context next w Hfresh Hm Ha).
           apply (handlePost_redirects context next w actionName action body Hb Hreg).
           rewrite Hlike. discriminate.
        -- reflexivity.
        -- count_same.
    + eapply stops_intro.
      * intros next. rewrite (onRequest_post_action context next w Hfresh Hm Ha).
        exact (handlePost_not_found context next w actionName body Hb Hreg).
      * reflexivity.
      * count_same.
  - apply static_stub_hands_over.
    intros next. rewrite (onRequest_post_action context next w Hfresh Hm Ha).
    unfold handlePost. now rewrite Hb.
Qed.

Lemma post_legacy_classified :
  Request.method (request context) = "POST" ->
  truthy (searchParam context "__action") = false ->
  match Request.body (request context) with
  | None => hands_over context w
  | Some _ =>
      if form_like (request context)
      then
        match request_formData (request context) with
        | None => stops context w
        | Some fd =>
            if truthy (entries_get "__action" fd)
            then
              match getAction (the (entries_get "__action" fd)) with
              | Some _ => hands_over context w
              | None => stops context w
              end
            else hands_over context w
        end
      else hands_over context w
  end.
Proof.
  intros Hm Ha.
  destruct (Request.body (request context)) as [body|] eqn:Hb.
  - destruct (form_like (request context)) eqn:Hlike;
      [destruct (request_formData (request context)) as [fd|] eqn:Hfd;
       [destruct (truthy (entries_get "__action" fd)) eqn:Hfield;
        [destruct (getAction (the (entries_get "__action" fd))) as [action|] eqn:Hreg|]|]|].
    + destruct (truthy_the _ Hfield) as [Hsome Hne].
      eapply hands_over_intro.
      * intros next. rewrite (onRequest_post_legacy context next w Hfresh Hm Ha).
        exact (handlePostLegacy_invokes context next w Hfresh body fd _ action
                 Hb Hlike Hfd Hsome Hne Hreg).
      * right. now eexists _, _, _.
      * exact Hfresh.
      * unfold sharing. cbn [trace with_heap]. count_same.
    + eapply stops_intro.
      * intros next. rewrite (onRequest_post_legacy context next w Hfresh Hm Ha).
        exact (handlePostLegacy_not_found context next w body fd Hb Hlike Hfd Hfield Hreg).
      * reflexivity.
      * count_same.
    + apply locals_stub_hands_over.
      intros next. rewrite (onRequest_post_legacy context next w Hfresh Hm Ha).
      rewrite (nextWithLocalsStub_fresh context next w Hfresh).
      apply handlePostLegacy_stub with (body := body); [exact Hfresh|exact Hb|].
      right. now exists fd.
    + eapply stops_intro.
      * intros next. rewrite (onRequest_post_legacy context next w Hfresh Hm Ha).
        exact (handlePostLegacy_cannot_parse context next w body Hb Hlike Hfd).
      * reflexivity.
      * reflexivity.
    + apply locals_stub_hands_over.
      intros next. rewrite (onRequest_post_legacy context next w Hfresh Hm Ha).
      rewrite (nextWithLocalsStub_fresh context next w Hfresh).
      apply handlePostLegacy_stub with (body := body); [exact Hfresh|exact Hb|].
      now left.
  - apply static_stub_hands_over.
    intros next. rewrite (onRequest_post_legacy context next w Hfresh Hm Ha).
    unfold handlePostLegacy. now rewrite Hb.
Qed.

(** Every request without a context is on exactly one side. *)
Lemma dispatch_classified :
  if installing_path context w then hands_over context w else stops context w.
Proof.
  unfold installing_path.
  destruct (truthy (searchParam context "__action")) eqn:Ha;
  destruct (String.eqb_spec (Request.method (request context)) "GET") as [Hg|Hg];
  destruct (String.eqb_spec (Request.method (request context)) "POST") as [Hp|Hp];
  try congruence; cbn [andb].
  - destruct (truthy (searchParam context "__result")) eqn:Hr.
    + pose proof (get_result_classified Hg Ha Hr) as H.
      now destruct (fst (decodeResult _ w)).
    + apply (stops_intro (Throw invoked_with_get) w); [|reflexivity|reflexivity].
      intros next. now apply onRequest_get_action.
  - pose proof (post_action_classified Hp Ha) as H.
    now destruct (Request.body (request context)).
  - apply locals_stub_hands_over. intros next. now apply onRequest_other_method.
  - apply locals_stub_hands_over. intros next. apply onRequest_otherwise; auto.
  - pose proof (post_legacy_classified Hp Ha) as H.
    destruct (Request.body (request context)); [|exact H].
    destruct (form_like (request context)); [|exact H].
    destruct (request_formData (request context)) as [fd|]; [|exact H].
    destruct (truthy (entries_get "__action" fd)); [|exact H].
    now destruct (getAction (the (entries_get "__action" fd))).
  - apply locals_stub_hands_over. intros next. now apply onRequest_other_method.
Qed.

End Paths.

(** * The scenarios of the specification, run on the small platform *)

Section Scenarios.
Import Demo.
#[local] Existing Instance Demo.platform.

(** Scenario 1: a POST naming [like] is answered by a redirect to the
    same URL with the envelope. *)
Example scenario_post_redirects :
  fst (onRequest (context_of "POST" form_headers form_body [("__action", "like")])
         render fresh)
  = Return (redirect ("https://example.com/page?__action=like&__result="
                      ++ like_envelope)).
Proof. reflexivity. Qed.

(** Scenario 2: the GET that follows renders with status 200, and the
    page reads the result of [like] back. *)
Example scenario_get_delivers :
  let delivery :=
    onRequest (context_of "GET" [] None
                 [("__action", "like"); ("__result", like_envelope)])
      render fresh in
  fst delivery = Return page /\
  fst (query {| toString := "?__action=like" |} (snd delivery))
  = Return (Reference 0) /\
  heap (snd delivery) = [Ok (JString "liked")].
Proof. repeat split. Qed.

(** Scenario 3: an action failing with status 400 is redirected like a
    success, and the GET that follows answers with status 400. *)
Example scenario_error_status :
  fst (onRequest (context_of "POST" form_headers form_body [("__action", "reject")])
         render fresh)
  = Return (redirect ("https://example.com/page?__action=reject&__result="
                      ++ reject_envelope)) /\
  fst (onRequest (context_of "GET" [] None
                    [("__action", "reject"); ("__result", reject_envelope)])
         render fresh)
  = Return (Response.make 400 "BAD_REQUEST" (Response.headers page)
              (Response.body page)).
Proof. split; reflexivity. Qed.

(** Scenario 4: a GET naming an action without a result is refused. *)
Example scenario_get_refused :
  fst (onRequest (context_of "GET" [] None [("__action", "increment")])
         render fresh)
  = Throw invoked_with_get.
Proof. reflexivity. Qed.

(** Scenario 5: a legacy form post runs the action and renders in the
    same pass. *)
Example scenario_legacy_post :
  let submission :=
    onRequest (context_of "POST" form_headers
                 (Some (list_byte_of_string "__action=like")) [])
      render fresh in
  fst submission = Return page /\
  trace (snd submission)
  = [GetAction "like"; CallAction "like" (Some [("__action", "like")]);
     DefineProperty (ResultContext "like" 0)] /\
  heap (snd submission) = [Ok (JString "liked")].
Proof. repeat split. Qed.

(** A tampered envelope is refused by decryption. *)
Example scenario_tampered :
  fst (onRequest (context_of "GET" [] None
                    [("__action", "like");
                     ("__result", "000102030405060708090a0cAAECAwQFBgcICQoLZGxpa2Vk")])
         render fresh)
  = Throw (JsError "OperationError"
             "The operation failed for an operation-specific reason").
Proof. reflexivity. Qed.

(** The page may write to the result it was handed: the status of the
    response follows the result object as the page left it. *)
Example scenario_result_rewritten :
  let forgiving :=
    exec (Query {| toString := "?__action=reject" |}
            (fun o =>
               match o with
               | Return (Reference object) =>
                   Mutate object (Ok (JString "fine")) (Respond page)
               | _ => Respond page
               end)) in
  fst (onRequest (context_of "GET" [] None
                    [("__action", "reject"); ("__result", reject_envelope)])
         forgiving fresh)
  = Return page.
Proof. reflexivity. Qed.

End Scenarios.

(** * Properties of the specification *)

(** C1.  Decoding what [encodeResult] produced gives the result back.
    For a result that survives [JSON.stringify] / [JSON.parse], on a
    platform whose decryption inverts its encryption and whose text
    decoder inverts its encoder on the serialized result:
    [encodeResult] draws a nonce of 12 bytes and returns the hexadecimal
    form of the nonce followed by the base64 form of the ciphertext; the
    first 24 characters of that string decode to the nonce; and
    [decodeResult] applied to the string returns the result. *)
Theorem encodeResult_decodeResult {P : Platform} (r : ActionResult) (w : World) :
  aead_correct -> text_lossless (JSON_stringify r) -> JSON_serializable r ->
  let iv := draw 12 w in
  let encoded :=
    Hex.encodeHex iv
    ++ Base64.encode (encrypt actionKey iv (encoder_encode (JSON_stringify r))) in
  List.length iv = 12 /\
  encodeResult r w = (Return encoded, with_drawn (drawn w + 12) w) /\
  Hex.decodeHex (slice_to 24 encoded) = Some iv /\
  (encodedResult <- encodeResult r ;; decodeResult encodedResult) w
  = (Return r, with_drawn (drawn w + 12) w).
Proof.
  intros Haead Htext Hjson iv encoded.
  pose proof (length_draw 12 w) as Hlen.
  split; [exact Hlen|]. split; [apply encodeResult_eq|]. split.
  - destruct (slice_envelope iv r Hlen) as [Hto _].
    unfold envelope in Hto. subst encoded. rewrite Hto.
    apply HexFacts.decodeHex_encodeHex.
  - unfold bind. rewrite encodeResult_eq.
    now apply decodeResult_envelope.
Qed.

Lemma encodeResult_decodeResult_witness :
  let r := Ok (JString "liked") in
  (encodedResult <- @encodeResult Demo.platform r ;;
   @decodeResult Demo.platform encodedResult) Demo.fresh
  = (Return r, with_drawn 12 Demo.fresh).
Proof.
  intros r.
  apply (@encodeResult_decodeResult Demo.platform r Demo.fresh).
  - exact demo_aead_correct.
  - apply string_of_list_byte_of_string.
  - reflexivity.
Defined.

(** C2, amended.  On a request that carries no installed context, whose
    method is POST, whose URL has a non-empty [__action] parameter naming
    a registered action, whose body is not null and whose form data, when
    the content type is one of a form, parses: the middleware looks the
    action up, calls it safely with the form data, encodes the result
    with a fresh nonce and answers with [context.redirect] to the
    request URL with [__result] set to the envelope (same base, other
    parameters untouched).  This is so whatever the action did, a
    failure being captured in the encoded result, which the envelope
    gives back when decoded (on a platform and for a result as in C1);
    no context is installed, and the downstream continuation is not run
    (the outcome does not depend on it). *)
Theorem onRequest_post_redirects {P : Platform} (context : APIContext)
    (next : M Response.t) (w : World) (actionName : string) (action : Action)
    (body : list byte) :
  _actionsInternal (locals w) = None ->
  Request.method (request context) = "POST" ->
  searchParam context "__action" = Some actionName ->
  actionName <> EmptyString ->
  Request.body (request context) = Some body ->
  getAction actionName = Some action ->
  (form_like (request context) = true ->
   request_formData (request context) <> None) ->
  let fd :=
    if form_like (request context)
    then request_formData (request context) else None in
  let result := captured (action (Some context) fd) in
  let encoded :=
    Hex.encodeHex (draw 12 w)
    ++ Base64.encode
         (encrypt actionKey (draw 12 w) (encoder_encode (JSON_stringify result))) in
  let redirectUrl :=
    URL.make (URL.base (url context))
      (entries_set "__result" encoded (URL.searchParams (url context))) in
  onRequest context next w
  = (Return (redirect (href redirectUrl)),
     with_drawn (drawn w + 12)
       (with_trace
          (trace w ++ [GetAction actionName; CallAction actionName fd;
                       ConsoleLog ("$$$redirect " ++ href redirectUrl)])%list w)) /\
  entries_get "__result" (URL.searchParams redirectUrl) = Some encoded /\
  (forall k, k <> "__result" ->
     entries_get k (URL.searchParams redirectUrl)
     = entries_get k (URL.searchParams (url context))) /\
  locals (snd (onRequest context next w)) = locals w /\
  (aead_correct -> text_lossless (JSON_stringify result) -> JSON_serializable result ->
   forall w', decodeResult encoded w' = (Return result, w')).
Proof.
  intros Hfresh Hm Ha Hne Hb Hreg Hform fd result encoded redirectUrl.
  assert (Hrun : onRequest context next w
    = (Return (redirect (href redirectUrl)),
       with_drawn (drawn w + 12)
         (with_trace
            (trace w ++ [GetAction actionName; CallAction actionName fd;
                         ConsoleLog ("$$$redirect " ++ href redirectUrl)])%list w))).
  { rewrite (onRequest_post_action context next w Hfresh Hm)
      by (rewrite Ha; now apply truthy_Some).
    rewrite Ha. cbn [the].
    exact (handlePost_redirects context next w actionName action body Hb Hreg Hform). }
  split; [exact Hrun|]. split; [apply get_set_same|].
  split; [intros k Hk; now apply get_set_other|].
  split; [now rewrite Hrun|].
  intros Haead Htext Hjson w'.
  apply decodeResult_envelope; auto using length_draw.
Qed.

Lemma onRequest_post_redirects_witness :
  fst (@onRequest Demo.platform
         (Demo.context_of "POST" Demo.form_headers (Some (list_byte_of_string "x=1"))
            [("__action", "reject")])
         Demo.render Demo.fresh)
  = Return (Response.make 302 EmptyString
              [("Location",
                "https://example.com/page?__action=reject&__result=000102030405060708090a0bAAECAwQFBgcICQoLZTQwMEJBRF9SRVFVRVNUfG5v")]
              None).
Proof.
  pose proof (@onRequest_post_redirects Demo.platform
    (Demo.context_of "POST" Demo.form_headers (Some (list_byte_of_string "x=1"))
       [("__action", "reject")])
    Demo.render Demo.fresh "reject" Demo.reject (list_byte_of_string "x=1")
    eq_refl eq_refl eq_refl) as H.
  destruct H as [H _]; [discriminate | reflexivity | reflexivity | discriminate |].
  rewrite H. reflexivity.
Defined.

(** C2 as stated fails on two requests.  A POST with [__action], a body
    and a registered action that re-enters with a context already
    installed: downstream renders the page, the action is not called, no
    redirect is issued.  And such a POST, on locals without a context,
    whose body is announced as a form and does not parse: the middleware
    throws after the lookup, the action is not called, no redirect is
    issued. *)
Lemma onRequest_post_counterexample :
  let context :=
    Demo.context_of "POST" Demo.form_headers (Some (list_byte_of_string "x=1"))
      [("__action", "like")] in
  Request.method (request context) = "POST" /\
  searchParam context "__action" = Some "like" /\
  Request.body (request context) <> None /\
  @getAction Demo.platform "like" = Some Demo.like /\
  (@onRequest Demo.platform context Demo.render Demo.installed
   = (Return Demo.page, Demo.installed) /\
   Response.status Demo.page = 200%Z /\
   entries_get "Location" (Response.headers Demo.page) = None /\
   trace Demo.installed = []) /\
  (@getAction Demo.unparsed "like" = Some Demo.like /\
   @onRequest Demo.unparsed context Demo.render Demo.fresh
   = (Throw cannot_parse, with_trace [GetAction "like"] Demo.fresh)).
Proof. repeat split. discriminate. Qed.

(** C3.  Re-entry: when the locals already carry [_actionsInternal], the
    middleware is [ApiContextStorage.run(context, next)] and nothing
    else.  Downstream starts from the locals and the trace it was given
    (no second context is installed, no registry lookup and no action
    call precede it), and the outcome, the locals and the trace at the
    end are those downstream left.  When the context in place is one the
    middleware installed, this holds through any further re-entry: after
    the middleware and any downstream program, rewrites included, the
    context is the same, and the trace counts no installation and no
    action call more than before. *)
Theorem onRequest_reentry {P : Platform} (context : APIContext)
    (next : M Response.t) (w : World) (p : Property) :
  _actionsInternal (locals w) = Some p ->
  let entered := with_storage (Some context) w in
  onRequest context next w = ApiContextStorage_run context next w /\
  locals entered = locals w /\ trace entered = trace w /\
  fst (onRequest context next w) = fst (next entered) /\
  locals (snd (onRequest context next w)) = locals (snd (next entered)) /\
  trace (snd (onRequest context next w)) = trace (snd (next entered)) /\
  (forall v d,
     p = frozen v ->
     let after := snd (onRequest context (exec d) w) in
     _actionsInternal (locals after) = Some p /\
     installs (trace after) = installs (trace w) /\
     calls (trace after) = calls (trace w)).
Proof.
  intros Hp entered.
  assert (Heq : forall n, onRequest context n w = ApiContextStorage_run context n w)
    by (intros n; unfold onRequest; now rewrite Hp).
  rewrite !Heq. unfold ApiContextStorage_run. fold entered.
  split; [reflexivity|]. split; [reflexivity|]. split; [reflexivity|].
  split; [now destruct (next entered)|]. split; [now destruct (next entered)|].
  split; [now destruct (next entered)|].
  intros v d ->. cbv zeta. rewrite ?Heq. unfold ApiContextStorage_run.
  fold entered.
  pose proof (exec_keeps d v entered Hp) as Hk.
  destruct (exec d entered) as [o w']. exact Hk.
Qed.

Lemma onRequest_reentry_witness :
  @onRequest Demo.platform
    (Demo.context_of "POST" Demo.form_headers (Some []) [("__action", "like")])
    Demo.render Demo.installed
  = (Return Demo.page, Demo.installed).
Proof.
  pose proof (@onRequest_reentry Demo.platform
    (Demo.context_of "POST" Demo.form_headers (Some []) [("__action", "like")])
    Demo.render Demo.installed (frozen LocalsStub) eq_refl) as [H _].
  rewrite H. reflexivity.
Defined.

(** C4, amended.  On the result-handling path ([handleResult]), once the
    context is installed and the downstream continuation has returned a
    response, the middleware reads the result object as it is by then.
    - When it holds an error whose status lies in 200..599, whose type
      is a reason phrase and whose status is not one of responses
      without body while the downstream response has a body
      ([presentable]), the middleware returns a response whose status
      is the error's status and whose status text is the error's type,
      with the body and the headers of the downstream response.
    - When it holds an error that is not so (its status being a number
      of 16 bits), the [Response] constructor throws, and so does the
      middleware: a [RangeError] or a [TypeError].
    - When it holds no error, the middleware returns the downstream
      response itself.
    In each case the world is the one downstream left. *)
Theorem handleResult_response (context : APIContext)
    (next : M Response.t) (w : World) (actionName : string)
    (actionResult : ActionResult) (installed : World)
    (response : Response.t) (w' : World) :
  let shared := List.length (heap w) in
  Object_defineProperty (ResultContext actionName shared) (sharing actionResult w)
  = (Return tt, installed) ->
  next (with_storage (Some context) installed) = (Return response, w') ->
  let stored := current shared actionResult w' in
  let after := with_storage (storage installed) w' in
  (forall e, error stored = Some e ->
     presentable e (Response.body response) = true ->
     exists final,
       handleResult context next actionName actionResult w = (Return final, after) /\
       Response.status final = ActionError.status e /\
       Response.statusText final = ActionError.type e /\
       Response.body final = Response.body response /\
       Response.headers final = Response.headers response) /\
  (forall e, error stored = Some e ->
     presentable e (Response.body response) = false ->
     (0 <= ActionError.status e < 65536)%Z ->
     exists name message,
       handleResult context next actionName actionResult w
       = (Throw (JsError name message), after) /\
       (name = "RangeError" \/ name = "TypeError")) /\
  (error stored = None ->
   handleResult context next actionName actionResult w = (Return response, after)).
Proof.
  intros shared Hdefine Hnext stored after.
  assert (Hrun : handleResult context next actionName actionResult w
                 = (fst (withErrorStatus stored response w'), after)).
  { unfold handleResult, bind at 1 2. cbn [share]. fold shared. rewrite Hdefine.
    unfold ApiContextStorage_run, bind. rewrite Hnext. cbn [read].
    fold stored. pose proof (withErrorStatus_world stored response w') as Hw.
    destruct (withErrorStatus stored response w') as [o w0]. cbn [snd fst] in *.
    now subst w0. }
  rewrite Hrun. unfold withErrorStatus. split; [|split].
  - intros e He Hok. rewrite He, (Response_new_presentable e response w' Hok).
    eexists. split; [reflexivity|]. now repeat split.
  - intros e He Hbad Hshort. rewrite He. unfold Response_new.
    assert (Hsame : unsigned_short (ActionError.status e) = ActionError.status e)
      by (unfold unsigned_short; now apply Z.mod_small).
    rewrite Hsame. unfold presentable in Hbad.
    destruct ((200 <=? ActionError.status e) && (ActionError.status e <=? 599))%Z;
      cbn [negb andb] in *.
    + destruct (reason_phrase (ActionError.type e)); cbn [negb andb] in *.
      * destruct (Response.body response); [|discriminate].
        apply negb_false_iff in Hbad. rewrite Hbad.
        eexists _, _. split; [reflexivity | now right].
      * eexists _, _. split; [reflexivity | now right].
    + eexists _, _. split; [reflexivity | now left].
  - intros He. now rewrite He.
Qed.

Lemma handleResult_response_witness :
  let failure := ActionError.make "BAD_REQUEST" 400 "no" in
  exists final,
    handleResult (Demo.context_of "GET" [] None []) Demo.render
      "reject" (Error failure) Demo.fresh
    = (Return final,
       install (ResultContext "reject" 0) (sharing (Error failure) Demo.fresh)) /\
    Response.status final = 400%Z /\
    Response.statusText final = "BAD_REQUEST" /\
    Response.body final = Response.body Demo.page /\
    Response.headers final = Response.headers Demo.page.
Proof.
  intros failure.
  destruct (handleResult_response (Demo.context_of "GET" [] None [])
              Demo.render Demo.fresh "reject" (Error failure)
              (install (ResultContext "reject" 0) (sharing (Error failure) Demo.fresh))
              Demo.page
              (with_storage (Some (Demo.context_of "GET" [] None []))
                 (install (ResultContext "reject" 0)
                    (sharing (Error failure) Demo.fresh)))
              eq_refl eq_refl) as [Herr _].
  exact (Herr failure eq_refl eq_refl).
Defined.

(** C4 as stated fails on stored errors whose status the [Response]
    constructor refuses: with the status 100 the middleware throws the
    [RangeError] instead of answering, and with the status 304, in front
    of a downstream response that has a body, the [TypeError].  And the
    stored result counts as it is once downstream has returned: when
    downstream has written to the result object it was handed, so that
    it holds no error any more, the downstream response is returned as
    it is, with its own status. *)
Lemma handleResult_response_counterexample :
  let context := Demo.context_of "GET" [] None [] in
  let early := Error (ActionError.make "CONTINUE" 100 "wait") in
  let cached := Error (ActionError.make "NOT_MODIFIED" 304 "same") in
  let failure := Error (ActionError.make "BAD_REQUEST" 400 "no") in
  let forgiving :=
    @exec Demo.platform (Mutate 0 (Ok (JString "fine")) (Respond Demo.page)) in
  Demo.render (with_storage (Some context)
                 (install (ResultContext "act" 0) (sharing early Demo.fresh)))
  = (Return Demo.page,
     with_storage (Some context)
       (install (ResultContext "act" 0) (sharing early Demo.fresh))) /\
  Response.body Demo.page = Some [] /\
  Response.status Demo.page = 200%Z /\
  fst (handleResult context Demo.render "act" early Demo.fresh)
  = Throw status_out_of_range /\
  fst (handleResult context Demo.render "act" cached Demo.fresh)
  = Throw (invalid_status_with_body 304) /\
  fst (handleResult context Demo.render "act" failure Demo.fresh)
  = Return (Response.make 400 "BAD_REQUEST" (Response.headers Demo.page)
              (Response.body Demo.page)) /\
  fst (handleResult context forgiving "act" failure Demo.fresh) = Return Demo.page.
Proof. repeat split. Qed.

(** C5.  The [getActionResult] of an installed result context, as
    [handleResult] built it and reached through the locals.  Called
    with a reference whose identity ([toString()]) is
    [getActionQueryString(actionName)], it returns the stored result
    object.  Called with a reference of another identity, it returns a
    promise resolved with [undefined], which is not [undefined] and
    gives it only once awaited.  Neither call has an effect.  On the
    sibling paths the closures return plain values: the stored result
    here, [undefined] in both stubs. *)
Theorem getActionResult_identity {P : Platform} (w : World) (p : Property)
    (actionName : string) (shared : Ref) (actionFn : ActionRef) :
  _actionsInternal (locals w) = Some p ->
  value p = ResultContext actionName shared ->
  getActionResult_written (written w) = None ->
  (toString actionFn <> getActionQueryString actionName ->
   query actionFn w = (Return (ResolvedPromise Undefined), w) /\
   ResolvedPromise Undefined <> Undefined /\
   await (ResolvedPromise Undefined) = Undefined) /\
  (toString actionFn = getActionQueryString actionName ->
   query actionFn w = (Return (Reference shared), w)) /\
  fst (getActionResult StaticStub actionFn w) = Return Undefined /\
  fst (getActionResult LocalsStub actionFn w) = Return Undefined.
Proof.
  intros Hp Hv Hw. unfold query. rewrite Hp, Hv, Hw. unfold getActionResult.
  split; [|split; [|split; reflexivity]].
  - intros Hne. apply String.eqb_neq in Hne. rewrite Hne.
    split; [reflexivity|]. split; [discriminate | reflexivity].
  - intros Heq. apply String.eqb_eq in Heq. now rewrite Heq.
Qed.

(** The failing input: a context installed for the action [like] by the
    GET that delivers its result, queried with a reference to another
    action. *)
Lemma getActionResult_identity_witness :
  let delivery :=
    Demo.context_of "GET" [] None
      [("__action", "like"); ("__result", Demo.like_envelope)] in
  let delivered := snd (@onRequest Demo.platform delivery Demo.render Demo.fresh) in
  @query Demo.platform {| toString := "?__action=other" |} delivered
  = (Return (ResolvedPromise Undefined), delivered) /\
  ResolvedPromise Undefined <> Undefined /\
  @query Demo.platform {| toString := "?__action=like" |} delivered
  = (Return (Reference 0), delivered) /\
  current 0 (Ok JNull) delivered = Ok (JString "liked").
Proof.
  intros delivery delivered.
  pose proof (fun actionFn =>
    @getActionResult_identity Demo.platform delivered
      (frozen (ResultContext "like" 0)) "like" 0 actionFn
      eq_refl eq_refl eq_refl) as H.
  destruct (H {| toString := "?__action=other" |}) as [Hother _].
  destruct (H {| toString := "?__action=like" |}) as [_ [Hsame _]].
  destruct Hother as [Hrun [Hne _]]; [discriminate|].
  split; [exact Hrun|]. split; [exact Hne|]. split; [now apply Hsame | reflexivity].
Defined.

(** C6, amended.  On a request that carries no installed context, whose
    method is GET and whose URL has a non-empty [__action] parameter and
    no (or an empty) [__result] parameter, the middleware throws the
    invalid-invocation error.  The world is left as it was: no registry
    lookup, no action call, no context; and the outcome does not depend
    on the downstream continuation, which is never run. *)
Theorem onRequest_get_invocation_rejected {P : Platform} (context : APIContext)
    (next : M Response.t) (w : World) (actionName : string) :
  _actionsInternal (locals w) = None ->
  Request.method (request context) = "GET" ->
  searchParam context "__action" = Some actionName ->
  actionName <> EmptyString ->
  truthy (searchParam context "__result") = false ->
  onRequest context next w = (Throw invoked_with_get, w).
Proof.
  intros Hfresh Hm Ha Hne Hr.
  apply onRequest_get_action; auto.
  rewrite Ha. now apply truthy_Some.
Qed.

Lemma onRequest_get_invocation_rejected_witness :
  @onRequest Demo.platform
    (Demo.context_of "GET" [] None [("__action", "increment")]) Demo.render Demo.fresh
  = (Throw invoked_with_get, Demo.fresh).
Proof.
  apply (@onRequest_get_invocation_rejected Demo.platform _ Demo.render
           Demo.fresh "increment").
  - reflexivity.
  - reflexivity.
  - reflexivity.
  - discriminate.
  - reflexivity.
Defined.

(** C6 as stated fails on two requests: a GET with [__action] and no
    [__result] that re-enters with a context already installed goes
    downstream; and a GET whose [__action] parameter is present but
    empty gets the no-result stub and goes downstream. *)
Lemma onRequest_get_invocation_counterexample :
  let reentered := Demo.context_of "GET" [] None [("__action", "increment")] in
  let unnamed := Demo.context_of "GET" [] None [("__action", EmptyString)] in
  (Request.method (request reentered) = "GET" /\
   searchParam reentered "__action" = Some "increment" /\
   searchParam reentered "__result" = None /\
   @onRequest Demo.platform reentered Demo.render Demo.installed
   = (Return Demo.page, Demo.installed)) /\
  (Request.method (request unnamed) = "GET" /\
   searchParam unnamed "__action" = Some EmptyString /\
   searchParam unnamed "__result" = None /\
   @onRequest Demo.platform unnamed Demo.render Demo.fresh
   = (Return Demo.page, install LocalsStub Demo.fresh)).
Proof. repeat split. Qed.

(** C7, amended.  On a request that carries no installed context, whose
    method is POST, whose URL has no (or an empty) [__action] parameter
    and whose body is not null:
    - when the content type is one of a form, the form data parses and
      its [__action] field names a registered action, the middleware
      looks the action up, calls it safely with the form data, installs
      the context holding the result and runs the downstream
      continuation in the same pass.  Its answer is what [handleResult]
      makes of the downstream response (C4): when it answers, it is
      with the headers and the body of that response -- the response
      itself when the result holds no error, the status of the error
      otherwise -- and never with a redirect of its own;
    - when the content type is not one of a form, or the form data has no
      (or an empty) [__action] field, it installs the no-result stub and
      runs the downstream continuation, whose outcome it passes on. *)
Theorem onRequest_post_legacy_form {P : Platform} (context : APIContext)
    (next : M Response.t) (w : World) (body : list byte) :
  _actionsInternal (locals w) = None ->
  Request.method (request context) = "POST" ->
  truthy (searchParam context "__action") = false ->
  Request.body (request context) = Some body ->
  (forall fd actionName action,
     form_like (request context) = true ->
     request_formData (request context) = Some fd ->
     entries_get "__action" fd = Some actionName ->
     actionName <> EmptyString ->
     getAction actionName = Some action ->
     let result := captured (action (Some context) (Some fd)) in
     let called :=
       with_trace (trace w ++ [GetAction actionName;
                               CallAction actionName (Some fd)])%list w in
     let shared := List.length (heap w) in
     let installed := install (ResultContext actionName shared) (sharing result called) in
     let entered := with_storage (Some context) installed in
     onRequest context next w
     = ApiContextStorage_run context
         (response <- next ;; deliver shared result response) installed /\
     current shared result entered = result /\
     (forall response w',
        next entered = (Return response, w') ->
        let stored := current shared result w' in
        fst (onRequest context next w) = fst (withErrorStatus stored response w') /\
        (forall final,
           fst (onRequest context next w) = Return final ->
           Response.headers final = Response.headers response /\
           Response.body final = Response.body response /\
           (error stored = None -> final = response) /\
           (forall e, error stored = Some e ->
              Response.status final = unsigned_short (ActionError.status e) /\
              Response.statusText final = ActionError.type e)))) /\
  (form_like (request context) = false \/
   (exists fd, request_formData (request context) = Some fd /\
               truthy (entries_get "__action" fd) = false) ->
   onRequest context next w
   = ApiContextStorage_run context next (install LocalsStub w)).
Proof.
  intros Hfresh Hm Ha Hb.
  rewrite (onRequest_post_legacy context next w Hfresh Hm Ha).
  split.
  - intros fd actionName action Hlike Hfd Hfield Hne Hreg result called shared
      installed entered.
    pose proof (handlePostLegacy_invokes context next w Hfresh body fd actionName
                  action Hb Hlike Hfd Hfield Hne Hreg) as Hrun.
    cbv zeta in Hrun. fold result called shared installed in Hrun.
    split; [exact Hrun|]. split; [exact (current_sharing result result called)|].
    intros response w' Hnext stored.
    assert (Hfst : fst (handlePostLegacy context next w)
                   = fst (withErrorStatus stored response w')).
    { rewrite Hrun. unfold ApiContextStorage_run, bind. fold entered.
      rewrite Hnext. rewrite deliver_eq. fold stored.
      now destruct (withErrorStatus stored response w'). }
    split; [exact Hfst|]. intros final Hfinal. rewrite Hfst in Hfinal.
    apply (withErrorStatus_returns stored response final w'
             (snd (withErrorStatus stored response w'))).
    now rewrite (surjective_pairing (withErrorStatus stored response w')), Hfinal.
  - now apply handlePostLegacy_stub with (body := body).
Qed.

Lemma onRequest_post_legacy_form_witness :
  let submitted :=
    Demo.context_of "POST" Demo.form_headers
      (Some (list_byte_of_string "__action=reject&x=1")) [] in
  let posted :=
    Demo.context_of "POST" [("content-type", "application/json")]
      (Some (list_byte_of_string "{}")) [] in
  fst (@onRequest Demo.platform submitted Demo.render Demo.fresh)
  = Return (Response.make 400 "BAD_REQUEST" (Response.headers Demo.page)
              (Response.body Demo.page)) /\
  @onRequest Demo.platform posted Demo.render Demo.fresh
  = (Return Demo.page, install LocalsStub Demo.fresh).
Proof.
  intros submitted posted. split.
  - destruct (@onRequest_post_legacy_form Demo.platform submitted Demo.render
                Demo.fresh (list_byte_of_string "__action=reject&x=1")
                eq_refl eq_refl eq_refl eq_refl) as [Hform _].
    destruct (Hform [("__action", "reject"); ("x", "1")] "reject" Demo.reject
                eq_refl eq_refl eq_refl) as [_ [_ Hresp]];
      [discriminate | reflexivity |].
    exact (proj1 (Hresp Demo.page _ eq_refl)).
  - destruct (@onRequest_post_legacy_form Demo.platform posted Demo.render
                Demo.fresh (list_byte_of_string "{}")
                eq_refl eq_refl eq_refl eq_refl) as [_ Hstub].
    rewrite Hstub; [reflexivity | now left].
Defined.

(** C7 as stated fails on two requests: a legacy form post naming a
    registered action that re-enters with a context already installed is
    passed downstream without the action being called and without its
    result being installed; and a legacy post that is not a form and has
    a null body gets the static stub, which warns when queried, instead
    of the no-result stub. *)
Lemma onRequest_post_legacy_form_counterexample :
  let submitted :=
    Demo.context_of "POST" Demo.form_headers
      (Some (list_byte_of_string "__action=like")) [] in
  let prerendered :=
    Demo.context_of "POST" [("content-type", "application/json")] None [] in
  let reentry := @onRequest Demo.platform submitted Demo.render Demo.installed in
  let stubbed := @onRequest Demo.platform prerendered Demo.render Demo.fresh in
  (Request.method (request submitted) = "POST" /\
   searchParam submitted "__action" = None /\
   @form_like Demo.platform (request submitted) = true /\
   @request_formData Demo.platform (request submitted) = Some [("__action", "like")] /\
   @getAction Demo.platform "like" = Some Demo.like /\
   fst reentry = Return Demo.page /\
   _actionsInternal (locals (snd reentry)) = Some (frozen LocalsStub) /\
   calls (trace (snd reentry)) = 0) /\
  (Request.method (request prerendered) = "POST" /\
   searchParam prerendered "__action" = None /\
   @form_like Demo.platform (request prerendered) = false /\
   fst stubbed = Return Demo.page /\
   _actionsInternal (locals (snd stubbed)) = Some (frozen StaticStub) /\
   trace (snd (@query Demo.platform {| toString := "?__action=like" |} (snd stubbed)))
   = [DefineProperty StaticStub; ConsoleWarn static_stub_warning]).
Proof. repeat split. Qed.

(** C8, amended.  On every path of the dispatcher that reaches the
    downstream continuation without taking the re-entry short-circuit
    -- result delivery, the static stub of a POST with a null body, a
    legacy POST, the no-result stub fallbacks; [installing_path] --
    exactly one [_actionsInternal] context is installed before
    downstream runs: as a property that is neither writable nor
    configurable, on locals that had none.  From then on an assignment
    to the property, a redefinition and a deletion all throw and change
    nothing; and whatever downstream does -- rewrites and writes to the
    members of the context and of the result included -- at the end of
    the request the property is the one installed and the number of
    installations made is one.  The protection is that of the
    property: the object it holds is not frozen, and a function stored
    in its [getActionResult] member answers the calls that follow.  On
    the other paths ([installing_path] false: the redirect of a fresh
    POST, a thrown error) the dispatcher ends the request itself and
    installs nothing. *)
Theorem onRequest_installs_once {P : Platform} (context : APIContext) (w : World) :
  _actionsInternal (locals w) = None ->
  (installing_path context w = true -> hands_over context w) /\
  (installing_path context w = false -> stops context w).
Proof.
  intros Hfresh. pose proof (dispatch_classified context w Hfresh) as H.
  destruct (installing_path context w); split; intros Hpath;
    [exact H | discriminate | discriminate | exact H].
Qed.

Lemma onRequest_installs_once_witness :
  @hands_over Demo.platform
    (Demo.context_of "POST" Demo.form_headers
       (Some (list_byte_of_string "__action=reject&x=1")) [])
    Demo.fresh /\
  @stops Demo.platform
    (Demo.context_of "POST" Demo.form_headers
       (Some (list_byte_of_string "x=1")) [("__action", "like")])
    Demo.fresh.
Proof.
  split.
  - apply (proj1 (@onRequest_installs_once Demo.platform
                    (Demo.context_of "POST" Demo.form_headers
                       (Some (list_byte_of_string "__action=reject&x=1")) [])
                    Demo.fresh eq_refl)).
    reflexivity.
  - apply (proj2 (@onRequest_installs_once Demo.platform
                    (Demo.context_of "POST" Demo.form_headers
                       (Some (list_byte_of_string "x=1")) [("__action", "like")])
                    Demo.fresh eq_refl)).
    reflexivity.
Defined.

(** C8 as stated fails twice.  The paths that end in the dispatcher are
    not the re-entry short-circuit and install no context: a fresh POST
    with a body is answered by the redirect, and a legacy POST naming an
    unknown action fails.  And an installed context is not immutable:
    after the delivery of the result of [like], downstream stores
    another function in the [getActionResult] member of the context,
    which succeeds, and the call that gave the result before gives
    [undefined]. *)
Lemma onRequest_installs_once_counterexample :
  let posted :=
    Demo.context_of "POST" Demo.form_headers Demo.form_body [("__action", "like")] in
  let unknown :=
    Demo.context_of "POST" Demo.form_headers
      (Some (list_byte_of_string "__action=missing")) [] in
  let delivery :=
    Demo.context_of "GET" [] None
      [("__action", "like"); ("__result", Demo.like_envelope)] in
  let redirected := @onRequest Demo.platform posted Demo.render Demo.fresh in
  let failed := @onRequest Demo.platform unknown Demo.render Demo.fresh in
  let delivered := snd (@onRequest Demo.platform delivery Demo.render Demo.fresh) in
  let overwritten := set_getActionResult (fun _ => Undefined) delivered in
  let like := {| toString := "?__action=like" |} in
  _actionsInternal (locals Demo.fresh) = None /\
  (fst redirected
   = Return (@redirect Demo.platform
               ("https://example.com/page?__action=like&__result="
                ++ Demo.like_envelope)) /\
   _actionsInternal (locals (snd redirected)) = None /\
   installs (trace (snd redirected)) = 0) /\
  (fst failed = Throw (not_found "missing") /\
   _actionsInternal (locals (snd failed)) = None /\
   installs (trace (snd failed)) = 0) /\
  (_actionsInternal (locals delivered) = Some (frozen (ResultContext "like" 0)) /\
   fst (@query Demo.platform like delivered) = Return (Reference 0) /\
   fst overwritten = Return tt /\
   fst (@query Demo.platform like (snd overwritten)) = Return Undefined).
Proof. repeat split. Qed.

(** C9, amended.  On a request that carries no installed context, whose
    method is POST and whose body is null, with or without an [__action]
    query parameter: the middleware installs the static stub and runs the
    downstream continuation, and that is all it does -- the only step
    before downstream is the installation (no registry lookup, no action
    call), and nothing follows it.  The stub's [getActionResult] returns
    [undefined] for every action reference and emits the warning each
    time it is called. *)
Theorem onRequest_post_null_body {P : Platform} (context : APIContext)
    (next : M Response.t) (w : World) :
  _actionsInternal (locals w) = None ->
  Request.method (request context) = "POST" ->
  Request.body (request context) = None ->
  onRequest context next w
  = ApiContextStorage_run context next (install StaticStub w) /\
  _actionsInternal (locals (install StaticStub w)) = Some (frozen StaticStub) /\
  trace (install StaticStub w) = (trace w ++ [DefineProperty StaticStub])%list /\
  (forall actionFn w0,
     getActionResult StaticStub actionFn w0
     = (Return Undefined,
        with_trace (trace w0 ++ [ConsoleWarn static_stub_warning])%list w0)).
Proof.
  intros Hfresh Hm Hb. split; [|repeat split].
  destruct (truthy (searchParam context "__action")) eqn:Ha.
  - rewrite (onRequest_post_action context next w Hfresh Hm Ha).
    unfold handlePost. rewrite Hb. now apply nextWithStaticStub_fresh.
  - rewrite (onRequest_post_legacy context next w Hfresh Hm Ha).
    unfold handlePostLegacy. rewrite Hb. now apply nextWithStaticStub_fresh.
Qed.

Lemma onRequest_post_null_body_witness :
  @onRequest Demo.platform (Demo.context_of "POST" Demo.form_headers None [])
    Demo.render Demo.fresh
  = (Return Demo.page, install StaticStub Demo.fresh).
Proof.
  destruct (@onRequest_post_null_body Demo.platform
              (Demo.context_of "POST" Demo.form_headers None [])
              Demo.render Demo.fresh eq_refl eq_refl eq_refl) as [H _].
  rewrite H. reflexivity.
Defined.

(** C9 as stated fails on a POST with a null body that re-enters after a
    first pass installed the no-result stub: no static stub is
    installed, and the context in place answers queries without a
    warning. *)
Lemma onRequest_post_null_body_counterexample :
  let context := Demo.context_of "POST" Demo.form_headers None [] in
  let after := snd (@onRequest Demo.platform context Demo.render Demo.installed) in
  Request.method (request context) = "POST" /\
  Request.body (request context) = None /\
  _actionsInternal (locals after) = Some (frozen LocalsStub) /\
  trace after = [] /\
  @getActionResult Demo.platform (value (frozen LocalsStub))
    {| toString := "?__action=like" |} after
  = (Return Undefined, after).
Proof. repeat split. Qed.

(** C10, amended.  On the GET result-delivery path -- no context
    installed yet, method GET, non-empty [__action] and [__result]
    parameters -- the middleware does not consult the action registry:
    it behaves the same under every registry, in particular under one
    that does not know the action name.  When the envelope decodes to a
    result, the result enters the store, a context holding it under the
    given name is installed, the installation being the only step
    before downstream, and the answer is what [handleResult] makes of
    the downstream response (C4).  When decoding throws, that error is
    the outcome; it is never the action-not-found error. *)
Theorem onRequest_get_result_delivery {P : Platform} (context : APIContext)
    (next : M Response.t) (w : World) (actionName encodedResult : string) :
  _actionsInternal (locals w) = None ->
  Request.method (request context) = "GET" ->
  searchParam context "__action" = Some actionName ->
  actionName <> EmptyString ->
  searchParam context "__result" = Some encodedResult ->
  encodedResult <> EmptyString ->
  (forall registry,
     @onRequest (with_registry registry P) context next w
     = @onRequest P context next w) /\
  (forall actionResult,
     fst (decodeResult encodedResult w) = Return actionResult ->
     let shared := List.length (heap w) in
     let installed :=
       install (ResultContext actionName shared) (sharing actionResult w) in
     onRequest context next w
     = ApiContextStorage_run context
         (response <- next ;; deliver shared actionResult response) installed /\
     trace installed
     = (trace w ++ [DefineProperty (ResultContext actionName shared)])%list /\
     _actionsInternal (locals installed)
     = Some (frozen (ResultContext actionName shared)) /\
     current shared actionResult installed = actionResult) /\
  (forall e,
     fst (decodeResult encodedResult w) = Throw e ->
     onRequest context next w = (Throw e, w) /\ e <> not_found actionName).
Proof.
  intros Hfresh Hm Ha Hane Hr Hrne.
  assert (Hta : truthy (searchParam context "__action") = true)
    by (rewrite Ha; now apply truthy_Some).
  assert (Htr : truthy (searchParam context "__result") = true)
    by (rewrite Hr; now apply truthy_Some).
  assert (Hpath : forall Q : Platform,
            @onRequest Q context next w
            = (actionResult <- @decodeResult Q encodedResult ;;
               handleResult context next actionName actionResult) w).
  { intros Q. rewrite (@onRequest_get_result Q context next w Hfresh Hm Hta Htr).
    now rewrite Ha, Hr. }
  split; [|split].
  - intros registry. now rewrite !Hpath.
  - intros actionResult Hdec shared installed.
    split; [|split; [reflexivity|split; [reflexivity|]]].
    + rewrite Hpath. unfold bind at 1.
      pose proof (decodeResult_world encodedResult w) as Hw.
      destruct (decodeResult encodedResult w) as [o w0]. cbn in Hdec, Hw. subst o w0.
      now apply handleResult_fresh.
    + exact (current_sharing actionResult actionResult w).
  - intros e Hdec. split.
    + rewrite Hpath. unfold bind.
      pose proof (decodeResult_world encodedResult w) as Hw.
      destruct (decodeResult encodedResult w) as [o w0]. cbn in Hdec, Hw.
      now subst o w0.
    + destruct (decodeResult_throws _ _ _ Hdec) as [-> | [-> | ->]]; discriminate.
Qed.

Lemma onRequest_get_result_delivery_witness :
  let context :=
    Demo.context_of "GET" [] None
      [("__action", "unregistered");
       ("__result", "000102030405060708090a0bAAECAwQFBgcICQoLZGxpa2Vk")] in
  @getAction Demo.platform "unregistered" = None /\
  @onRequest Demo.platform context Demo.render Demo.fresh
  = (Return Demo.page,
     install (ResultContext "unregistered" 0)
       (sharing (Ok (JString "liked")) Demo.fresh)).
Proof.
  intros context. split; [reflexivity|].
  destruct (@onRequest_get_result_delivery Demo.platform context Demo.render
              Demo.fresh "unregistered"
              "000102030405060708090a0bAAECAwQFBgcICQoLZGxpa2Vk"
              eq_refl eq_refl eq_refl) as [_ [Hok _]];
    [discriminate | reflexivity | discriminate |].
  destruct (Hok (Ok (JString "liked")) eq_refl) as [Hrun _].
  rewrite Hrun. reflexivity.
Defined.

(** C10 as stated fails on two GET requests that carry both parameters
    and an envelope that decodes.  One re-enters with a context already
    installed: it goes downstream as it is, no context is installed for
    the action name, and the result does not enter the store.  The
    other has an empty [__action]: the empty name is not accepted, the
    request gets the no-result stub, and the envelope is not looked
    at. *)
Lemma onRequest_get_result_delivery_counterexample :
  let reentered :=
    Demo.context_of "GET" [] None
      [("__action", "like"); ("__result", Demo.like_envelope)] in
  let unnamed :=
    Demo.context_of "GET" [] None
      [("__action", EmptyString); ("__result", Demo.like_envelope)] in
  (forall w, @decodeResult Demo.platform Demo.like_envelope w
             = (Return (Ok (JString "liked")), w)) /\
  (Request.method (request reentered) = "GET" /\
   searchParam reentered "__action" = Some "like" /\
   searchParam reentered "__result" = Some Demo.like_envelope /\
   @onRequest Demo.platform reentered Demo.render Demo.installed
   = (Return Demo.page, Demo.installed) /\
   _actionsInternal (locals Demo.installed) = Some (frozen LocalsStub) /\
   heap Demo.installed = []) /\
  (Request.method (request unnamed) = "GET" /\
   searchParam unnamed "__action" = Some EmptyString /\
   searchParam unnamed "__result" = Some Demo.like_envelope /\
   @onRequest Demo.platform unnamed Demo.render Demo.fresh
   = (Return Demo.page, install LocalsStub Demo.fresh) /\
   heap (install LocalsStub Demo.fresh) = []).
Proof. repeat split. Qed.

(** * Further properties of the middleware *)

(** ** The codec on arbitrary input *)

Lemma Return_inj {A : Type} (a b : A) : Return a = Return b -> a = b.
Proof. intros H. now injection H. Qed.

Lemma Some_inj {A : Type} (a b : A) : Some a = Some b -> a = b.
Proof. intros H. now injection H. Qed.

Lemma slice_hex (iv : list byte) (rest : string) :
  List.length iv = 12 ->
  slice_to 24 (Hex.encodeHex iv ++ rest) = Hex.encodeHex iv /\
  slice_from 24 (Hex.encodeHex iv ++ rest) = rest.
Proof.
  intros Hlen.
  assert (H24 : 24 = String.length (Hex.encodeHex iv))
    by (rewrite HexFacts.length_encodeHex, Hlen; reflexivity).
  rewrite H24 at 1 2. split; [apply slice_to_app | apply slice_from_app].
Qed.

(** X2.  For every nonce of 12 bytes and every byte string, well formed
    or tampered with, [decodeResult] applied to the hexadecimal form of
    the nonce followed by the base64 form of the bytes hands exactly
    that nonce and those bytes to the cipher: it throws the
    [OperationError] when the cipher rejects them, the [SyntaxError]
    when the plaintext does not parse, and returns the parsed result
    otherwise, without any effect. *)
Theorem decodeResult_layout {P : Platform} (iv dataArray : list byte) (w : World) :
  List.length iv = 12 ->
  decodeResult (Hex.encodeHex iv ++ Base64.encode dataArray) w
  = match decrypt actionKey iv dataArray with
    | None =>
        (Throw (JsError "OperationError"
                  "The operation failed for an operation-specific reason"), w)
    | Some decryptedBuffer =>
        match JSON_parse (decoder_decode decryptedBuffer) with
        | None => (Throw (JsError "SyntaxError" "Unexpected token in JSON"), w)
        | Some r => (Return r, w)
        end
    end.
Proof.
  intros Hlen. destruct (slice_hex iv (Base64.encode dataArray) Hlen) as [Hto Hfrom].
  unfold decodeResult, bind.
  rewrite Hto, Hfrom, HexFacts.decodeHex_encodeHex. cbn [orThrow ret].
  rewrite Base64Facts.base64_decode_encode. cbn [orThrow ret].
  destruct (decrypt actionKey iv dataArray) as [decryptedBuffer|]; [|reflexivity].
  cbn [orThrow ret]. now destruct (JSON_parse (decoder_decode decryptedBuffer)).
Qed.

Lemma decodeResult_layout_witness :
  let iv := draw 12 Demo.fresh in
  let forged := draw 12 (with_drawn 12 Demo.fresh) in
  let sealed :=
    @encrypt Demo.platform (@actionKey Demo.platform) iv
      (list_byte_of_string "dliked") in
  @decodeResult Demo.platform (Hex.encodeHex iv ++ Base64.encode sealed) Demo.fresh
  = (Return (Ok (JString "liked")), Demo.fresh) /\
  @decodeResult Demo.platform (Hex.encodeHex forged ++ Base64.encode sealed) Demo.fresh
  = (Throw (JsError "OperationError"
              "The operation failed for an operation-specific reason"), Demo.fresh).
Proof.
  intros iv forged sealed. split.
  - rewrite (@decodeResult_layout Demo.platform iv sealed Demo.fresh eq_refl).
    reflexivity.
  - rewrite (@decodeResult_layout Demo.platform forged sealed Demo.fresh eq_refl).
    reflexivity.
Defined.

(** X3.  An envelope determines its nonce and its result: when two calls
    of [encodeResult], in whatever worlds, return the same string, they
    drew the same nonce and encoded the same result (results that
    survive serialization, on a platform as in C1). *)
Theorem encodeResult_injective {P : Platform} (r1 r2 : ActionResult)
    (w1 w2 : World) :
  aead_correct ->
  text_lossless (JSON_stringify r1) -> text_lossless (JSON_stringify r2) ->
  JSON_serializable r1 -> JSON_serializable r2 ->
  fst (encodeResult r1 w1) = fst (encodeResult r2 w2) ->
  draw 12 w1 = draw 12 w2 /\ r1 = r2.
Proof.
  intros Haead Ht1 Ht2 Hj1 Hj2 Heq.
  rewrite !encodeResult_eq in Heq. cbn [fst] in Heq. apply Return_inj in Heq.
  pose proof (length_draw 12 w1) as Hl1. pose proof (length_draw 12 w2) as Hl2.
  split.
  - destruct (slice_envelope (draw 12 w1) r1 Hl1) as [E1 _].
    destruct (slice_envelope (draw 12 w2) r2 Hl2) as [E2 _].
    rewrite Heq, E2 in E1.
    apply (f_equal Hex.decodeHex) in E1.
    rewrite !HexFacts.decodeHex_encodeHex in E1. now apply Some_inj in E1.
  - pose proof (decodeResult_envelope (draw 12 w1) r1 w1 Haead Ht1 Hj1 Hl1) as D1.
    pose proof (decodeResult_envelope (draw 12 w2) r2 w1 Haead Ht2 Hj2 Hl2) as D2.
    rewrite Heq, D2 in D1. apply (f_equal fst) in D1. cbn [fst] in D1.
    symmetry. now apply Return_inj in D1.
Qed.

Lemma encodeResult_injective_witness :
  let r := Ok (JString "liked") in
  let later := with_trace [ConsoleLog "later"] Demo.fresh in
  draw 12 Demo.fresh = draw 12 later /\ r = r.
Proof.
  intros r later.
  apply (@encodeResult_injective Demo.platform r r Demo.fresh later).
  - exact demo_aead_correct.
  - apply string_of_list_byte_of_string.
  - apply string_of_list_byte_of_string.
  - reflexivity.
  - reflexivity.
  - reflexivity.
Defined.

(** X4.  Two calls of [encodeResult] in a row consume 24 bytes of the
    random source, the first twelve for the first nonce and the next
    twelve for the second; as soon as those two windows differ the two
    envelopes differ, also for one and the same result. *)
Theorem encodeResult_twice {P : Platform} (r1 r2 : ActionResult) (w : World) :
  draw 12 w <> draw 12 (with_drawn (drawn w + 12) w) ->
  exists e1 e2,
    (a <- encodeResult r1 ;; b <- encodeResult r2 ;; ret (a, b)) w
    = (Return (e1, e2), with_drawn (drawn w + 12 + 12) w) /\
    slice_to 24 e1 = Hex.encodeHex (draw 12 w) /\
    slice_to 24 e2 = Hex.encodeHex (draw 12 (with_drawn (drawn w + 12) w)) /\
    e1 <> e2.
Proof.
  intros Hdiff.
  exists (envelope (draw 12 w) r1),
         (envelope (draw 12 (with_drawn (drawn w + 12) w)) r2).
  destruct (slice_envelope (draw 12 w) r1 (length_draw 12 w)) as [H1 _].
  destruct (slice_envelope (draw 12 (with_drawn (drawn w + 12) w)) r2
              (length_draw 12 _)) as [H2 _].
  split; [reflexivity|]. split; [exact H1|]. split; [exact H2|].
  intros Heq. apply Hdiff.
  rewrite Heq, H2 in H1. apply (f_equal Hex.decodeHex) in H1.
  rewrite !HexFacts.decodeHex_encodeHex in H1. symmetry. now apply Some_inj in H1.
Qed.

Lemma encodeResult_twice_witness :
  let r := Ok (JString "liked") in
  exists e1 e2,
    fst ((a <- @encodeResult Demo.platform r ;;
          b <- @encodeResult Demo.platform r ;; ret (a, b)) Demo.fresh)
    = Return (e1, e2) /\ e1 <> e2.
Proof.
  intros r.
  destruct (@encodeResult_twice Demo.platform r r Demo.fresh)
    as [e1 [e2 [Hrun [_ [_ Hne]]]]]; [discriminate|].
  exists e1, e2. now rewrite Hrun.
Defined.

(** ** From the POST to the GET that follows the redirect *)

Lemma envelope_nonempty {P : Platform} (iv : list byte) (r : ActionResult) :
  List.length iv = 12 -> envelope iv r <> EmptyString.
Proof.
  intros Hlen Hnil. destruct (slice_envelope iv r Hlen) as [Hto _].
  rewrite Hnil in Hto. cbn in Hto.
  apply (f_equal String.length) in Hto.
  rewrite HexFacts.length_encodeHex, Hlen in Hto. discriminate.
Qed.

(** X5.  From the POST to the GET behind the redirect.  Take a fresh
    POST as in C2, answered by the redirect to [redirectUrl], and any
    later GET of that URL on locals without a context, on a platform
    whose decryption inverts its encryption and whose text decoder
    inverts its encoder on the serialized result.  What the GET
    delivers is what JSON serialization leaves of the result captured
    in the POST -- [delivered], which is that result only when it
    survives [JSON.stringify] and [JSON.parse].  The GET shares
    [delivered] and installs a context for the same action name around
    it; a page asking with a reference of that action's identity gets
    that object; and the answer is what [handleResult] makes of the
    downstream response and of the object as downstream left it.  When
    the serialized result does not parse at all, the GET throws the
    [SyntaxError] and installs nothing. *)
Theorem post_then_get {P : Platform} (context follow : APIContext)
    (next next' : M Response.t) (w w2 : World) (actionName : string)
    (action : Action) (body : list byte) :
  _actionsInternal (locals w) = None ->
  Request.method (request context) = "POST" ->
  searchParam context "__action" = Some actionName ->
  actionName <> EmptyString ->
  Request.body (request context) = Some body ->
  getAction actionName = Some action ->
  (form_like (request context) = true ->
   request_formData (request context) <> None) ->
  let fd :=
    if form_like (request context)
    then request_formData (request context) else None in
  let result := captured (action (Some context) fd) in
  let encoded :=
    Hex.encodeHex (draw 12 w)
    ++ Base64.encode
         (encrypt actionKey (draw 12 w) (encoder_encode (JSON_stringify result))) in
  let redirectUrl :=
    URL.make (URL.base (url context))
      (entries_set "__result" encoded (URL.searchParams (url context))) in
  aead_correct -> text_lossless (JSON_stringify result) ->
  Request.method (request follow) = "GET" ->
  url follow = redirectUrl ->
  _actionsInternal (locals w2) = None ->
  fst (onRequest context next w) = Return (redirect (href redirectUrl)) /\
  (forall delivered,
     JSON_parse (JSON_stringify result) = Some delivered ->
     let shared := List.length (heap w2) in
     let installed :=
       install (ResultContext actionName shared) (sharing delivered w2) in
     onRequest follow next' w2
     = ApiContextStorage_run follow
         (response <- next' ;; deliver shared delivered response) installed /\
     current shared delivered installed = delivered /\
     (forall actionFn,
        toString actionFn = getActionQueryString actionName ->
        query actionFn installed = (Return (Reference shared), installed)) /\
     (forall response w',
        next' (with_storage (Some follow) installed) = (Return response, w') ->
        fst (onRequest follow next' w2)
        = fst (withErrorStatus (current shared delivered w') response w'))) /\
  (JSON_parse (JSON_stringify result) = None ->
   onRequest follow next' w2
   = (Throw (JsError "SyntaxError" "Unexpected token in JSON"), w2)).
Proof.
  intros Hfresh Hm Ha Hne Hb Hreg Hform fd result encoded redirectUrl
    Haead Htext Hm2 Hurl Hfresh2.
  assert (Hta : truthy (searchParam context "__action") = true)
    by (rewrite Ha; now apply truthy_Some).
  assert (Ha2 : searchParam follow "__action" = Some actionName).
  { unfold searchParam. rewrite Hurl. cbn [URL.searchParams redirectUrl].
    rewrite get_set_other by discriminate. exact Ha. }
  assert (Hr2 : searchParam follow "__result" = Some encoded).
  { unfold searchParam. rewrite Hurl. cbn [URL.searchParams redirectUrl].
    apply get_set_same. }
  assert (Hnonempty : encoded <> EmptyString)
    by (apply (envelope_nonempty (draw 12 w) result), length_draw).
  assert (Hdecode : decodeResult encoded w2
                    = orThrow (JsError "SyntaxError" "Unexpected token in JSON")
                        (JSON_parse (JSON_stringify result)) w2).
  { destruct (slice_envelope (draw 12 w) result (length_draw 12 w)) as [Hto Hfrom].
    change encoded with (envelope (draw 12 w) result).
    unfold decodeResult, bind.
    rewrite Hto, Hfrom, HexFacts.decodeHex_encodeHex. cbn [orThrow ret].
    rewrite Base64Facts.base64_decode_encode. cbn [orThrow ret].
    rewrite Haead. cbn [orThrow ret]. now rewrite Htext. }
  assert (Hget : onRequest follow next' w2
                 = (actionResult <- decodeResult encoded ;;
                    handleResult follow next' actionName actionResult) w2).
  { rewrite (onRequest_get_result follow next' w2 Hfresh2 Hm2)
      by (rewrite ?Ha2, ?Hr2; now apply truthy_Some).
    now rewrite Ha2, Hr2. }
  split; [|split].
  - rewrite (onRequest_post_action context next w Hfresh Hm Hta), Ha. cbn [the].
    now rewrite (handlePost_redirects context next w actionName action body
                   Hb Hreg Hform).
  - intros delivered Hparse shared installed.
    assert (Hrun : onRequest follow next' w2
                   = ApiContextStorage_run follow
                       (response <- next' ;; deliver shared delivered response)
                       installed).
    { rewrite Hget. unfold bind at 1. rewrite Hdecode, Hparse. cbn [orThrow ret].
      now apply handleResult_fresh. }
    split; [exact Hrun|].
    split; [exact (current_sharing delivered delivered w2)|]. split.
    + intros actionFn Hid. unfold query, installed. rewrite install_locals.
      cbn [value frozen getActionResult written install with_written with_trace
           getActionResult_written untouched].
      apply String.eqb_eq in Hid. now rewrite Hid.
    + intros response w' Hnext. rewrite Hrun.
      unfold ApiContextStorage_run, bind. rewrite Hnext, deliver_eq.
      now destruct (withErrorStatus (current shared delivered w') response w').
  - intros Hparse. rewrite Hget. unfold bind at 1. now rewrite Hdecode, Hparse.
Qed.

Lemma post_then_get_witness :
  let posted :=
    Demo.context_of "POST" Demo.form_headers Demo.form_body [("__action", "reject")] in
  let followed :=
    Demo.context_of "GET" [] None
      [("__action", "reject"); ("__result", Demo.reject_envelope)] in
  fst (@onRequest Demo.platform followed Demo.render Demo.fresh)
  = Return (Response.make 400 "BAD_REQUEST" (Response.headers Demo.page)
              (Response.body Demo.page)).
Proof.
  intros posted followed.
  destruct (@post_then_get Demo.platform posted followed Demo.render Demo.render
              Demo.fresh Demo.fresh "reject" Demo.reject (list_byte_of_string "x=1")
              eq_refl eq_refl eq_refl) as [_ [Hdelivers _]].
  - discriminate.
  - reflexivity.
  - reflexivity.
  - discriminate.
  - exact demo_aead_correct.
  - apply string_of_list_byte_of_string.
  - reflexivity.
  - reflexivity.
  - reflexivity.
  - destruct (Hdelivers (Error (ActionError.make "BAD_REQUEST" 400 "no")) eq_refl)
      as [_ [_ [_ Hresp]]].
    exact (Hresp Demo.page _ eq_refl).
Defined.

(** ** Requests that name no action *)

(** X6.  On locals without a context, a request whose method is neither
    GET nor POST, and a GET whose URL has no (or an empty) [__action]
    parameter, get the no-result stub and go downstream, whatever else
    the URL carries: neither [__action] nor [__result] is looked at any
    further, so nothing is decoded, looked up or called, and a
    [__result] that would not decode does no harm. *)
Theorem onRequest_fallback {P : Platform} (context : APIContext)
    (next : M Response.t) (w : World) :
  _actionsInternal (locals w) = None ->
  (Request.method (request context) <> "GET" /\
   Request.method (request context) <> "POST") \/
  (Request.method (request context) = "GET" /\
   truthy (searchParam context "__action") = false) ->
  onRequest context next w
  = ApiContextStorage_run context next (install LocalsStub w) /\
  trace (install LocalsStub w) = (trace w ++ [DefineProperty LocalsStub])%list /\
  drawn (install LocalsStub w) = drawn w.
Proof.
  intros Hfresh Hcase. split; [|now split].
  rewrite <- (nextWithLocalsStub_fresh context next w Hfresh).
  destruct Hcase as [[Hg Hp] | [Hg Ha]].
  - now apply onRequest_other_method.
  - apply onRequest_otherwise; auto. rewrite Hg. discriminate.
Qed.

Lemma onRequest_fallback_witness :
  @onRequest Demo.platform
    (Demo.context_of "PUT" Demo.form_headers Demo.form_body
       [("__action", "like"); ("__result", "tampered")])
    Demo.render Demo.fresh
  = (Return Demo.page, install LocalsStub Demo.fresh) /\
  @onRequest Demo.platform
    (Demo.context_of "GET" [] None [("__result", "tampered")])
    Demo.render Demo.fresh
  = (Return Demo.page, install LocalsStub Demo.fresh).
Proof.
  split.
  - destruct (@onRequest_fallback Demo.platform
                (Demo.context_of "PUT" Demo.form_headers Demo.form_body
                   [("__action", "like"); ("__result", "tampered")])
                Demo.render Demo.fresh eq_refl) as [H _].
    + left. split; discriminate.
    + rewrite H. reflexivity.
  - destruct (@onRequest_fallback Demo.platform
                (Demo.context_of "GET" [] None [("__result", "tampered")])
                Demo.render Demo.fresh eq_refl) as [H _].
    + right. now split.
    + rewrite H. reflexivity.
Defined.

(** ** Failures before the action runs *)

(** X7.  On locals without a context, a fresh POST naming an action
    the registry does not know, with a body: the middleware throws
    [Action "name" not found.] right after the lookup.  The body is not read as a form (so this holds
    also for a body that would not parse), no action is called, no
    randomness is drawn, no context is installed, and downstream is not
    run. *)
Theorem onRequest_post_unknown_action {P : Platform} (context : APIContext)
    (next : M Response.t) (w : World) (actionName : string) (body : list byte) :
  _actionsInternal (locals w) = None ->
  Request.method (request context) = "POST" ->
  searchParam context "__action" = Some actionName ->
  actionName <> EmptyString ->
  Request.body (request context) = Some body ->
  getAction actionName = None ->
  onRequest context next w
  = (Throw (JsError "Error"
              ("Action " ++ dquote ++ actionName ++ dquote ++ " not found.")),
     with_trace (trace w ++ [GetAction actionName])%list w).
Proof.
  intros Hfresh Hm Ha Hne Hb Hreg.
  rewrite (onRequest_post_action context next w Hfresh Hm)
    by (rewrite Ha; now apply truthy_Some).
  rewrite Ha. cbn [the].
  exact (handlePost_not_found context next w actionName body Hb Hreg).
Qed.

Lemma onRequest_post_unknown_action_witness :
  @onRequest Demo.unparsed
    (Demo.context_of "POST" Demo.form_headers Demo.form_body [("__action", "missing")])
    Demo.render Demo.fresh
  = (Throw (not_found "missing"), with_trace [GetAction "missing"] Demo.fresh).
Proof.
  apply (@onRequest_post_unknown_action Demo.unparsed _ Demo.render Demo.fresh
           "missing" (list_byte_of_string "x=1")).
  - reflexivity.
  - reflexivity.
  - reflexivity.
  - discriminate.
  - reflexivity.
  - reflexivity.
Defined.

(** X8.  On locals without a context, a legacy form post (no
    [__action] in the URL) whose form names an action the registry
    does not know: the middleware throws
    [Action "name" not found.] after parsing the form and looking the
    name up.  No action is called, no context is installed, and
    downstream is not run. *)
Theorem onRequest_legacy_unknown_action {P : Platform} (context : APIContext)
    (next : M Response.t) (w : World) (body : list byte) (fd : FormData)
    (actionName : string) :
  _actionsInternal (locals w) = None ->
  Request.method (request context) = "POST" ->
  truthy (searchParam context "__action") = false ->
  Request.body (request context) = Some body ->
  form_like (request context) = true ->
  request_formData (request context) = Some fd ->
  entries_get "__action" fd = Some actionName ->
  actionName <> EmptyString ->
  getAction actionName = None ->
  onRequest context next w
  = (Throw (JsError "Error"
              ("Action " ++ dquote ++ actionName ++ dquote ++ " not found.")),
     with_trace (trace w ++ [GetAction actionName])%list w).
Proof.
  intros Hfresh Hm Ha Hb Hlike Hfd Hfield Hne Hreg.
  rewrite (onRequest_post_legacy context next w Hfresh Hm Ha).
  pose proof (handlePostLegacy_not_found context next w body fd Hb Hlike Hfd) as H.
  rewrite Hfield in H. cbn [the] in H.
  apply H; [now apply truthy_Some | exact Hreg].
Qed.

Lemma onRequest_legacy_unknown_action_witness :
  @onRequest Demo.platform
    (Demo.context_of "POST" Demo.form_headers
       (Some (list_byte_of_string "__action=missing")) [])
    Demo.render Demo.fresh
  = (Throw (not_found "missing"), with_trace [GetAction "missing"] Demo.fresh).
Proof.
  apply (@onRequest_legacy_unknown_action Demo.platform _ Demo.render Demo.fresh
           (list_byte_of_string "__action=missing") [("__action", "missing")]
           "missing").
  - reflexivity.
  - reflexivity.
  - reflexivity.
  - reflexivity.
  - reflexivity.
  - reflexivity.
  - reflexivity.
  - discriminate.
  - reflexivity.
Defined.

(** X9.  On locals without a context, a POST with a body announced as
    a form that [formData()] rejects: the rejection is the outcome of
    the middleware, on both POST paths.  On the fresh path the registry has been consulted by
    then, and the registered action is not called; on the legacy path
    nothing at all has happened.  No context is installed and
    downstream is not run. *)
Theorem onRequest_form_rejected {P : Platform} (context : APIContext)
    (next : M Response.t) (w : World) (body : list byte) :
  _actionsInternal (locals w) = None ->
  Request.method (request context) = "POST" ->
  Request.body (request context) = Some body ->
  form_like (request context) = true ->
  request_formData (request context) = None ->
  (forall actionName action,
     searchParam context "__action" = Some actionName ->
     actionName <> EmptyString ->
     getAction actionName = Some action ->
     onRequest context next w
     = (Throw cannot_parse, with_trace (trace w ++ [GetAction actionName])%list w)) /\
  (truthy (searchParam context "__action") = false ->
   onRequest context next w = (Throw cannot_parse, w)).
Proof.
  intros Hfresh Hm Hb Hlike Hfd. split.
  - intros actionName action Ha Hne Hreg.
    rewrite (onRequest_post_action context next w Hfresh Hm)
      by (rewrite Ha; now apply truthy_Some).
    rewrite Ha. cbn [the].
    exact (handlePost_cannot_parse context next w actionName action body
             Hb Hreg Hlike Hfd).
  - intros Ha. rewrite (onRequest_post_legacy context next w Hfresh Hm Ha).
    exact (handlePostLegacy_cannot_parse context next w body Hb Hlike Hfd).
Qed.

Lemma onRequest_form_rejected_witness :
  @onRequest Demo.unparsed
    (Demo.context_of "POST" Demo.form_headers Demo.form_body [("__action", "like")])
    Demo.render Demo.fresh
  = (Throw cannot_parse, with_trace [GetAction "like"] Demo.fresh) /\
  @onRequest Demo.unparsed
    (Demo.context_of "POST" Demo.form_headers Demo.form_body [])
    Demo.render Demo.fresh
  = (Throw cannot_parse, Demo.fresh).
Proof.
  split.
  - destruct (@onRequest_form_rejected Demo.unparsed
                (Demo.context_of "POST" Demo.form_headers Demo.form_body
                   [("__action", "like")])
                Demo.render Demo.fresh (list_byte_of_string "x=1")
                eq_refl eq_refl eq_refl eq_refl eq_refl) as [H _].
    apply (H "like" Demo.like); [reflexivity | discriminate | reflexivity].
  - destruct (@onRequest_form_rejected Demo.unparsed
                (Demo.context_of "POST" Demo.form_headers Demo.form_body [])
                Demo.render Demo.fresh (list_byte_of_string "x=1")
                eq_refl eq_refl eq_refl eq_refl eq_refl) as [_ H].
    now apply H.
Defined.

(** ** The redirect URL *)

Lemma occurrences_delete (name : string) (entries : Entries) :
  occurrences name (entries_delete name entries) = 0.
Proof.
  unfold occurrences. induction entries as [|[k v] rest IH]; [reflexivity|].
  cbn [entries_delete]. destruct (String.eqb k name) eqn:E; [exact IH|].
  cbn [filter fst]. now rewrite E.
Qed.

Lemma occurrences_set (name v : string) (entries : Entries) :
  occurrences name (entries_set name v entries) = 1.
Proof.
  induction entries as [|[k v'] rest IH]; cbn [entries_set].
  - unfold occurrences. cbn [filter fst]. now rewrite String.eqb_refl.
  - destruct (String.eqb k name) eqn:E.
    + pose proof (occurrences_delete name rest) as Hd.
      unfold occurrences in *. cbn [filter fst]. rewrite String.eqb_refl.
      cbn [List.length]. now rewrite Hd.
    + unfold occurrences in *. cbn [filter fst]. now rewrite E.
Qed.

Lemma delete_delete (name : string) (entries : Entries) :
  entries_delete name (entries_delete name entries) = entries_delete name entries.
Proof.
  induction entries as [|[k v] rest IH]; [reflexivity|].
  cbn [entries_delete]. destruct (String.eqb k name) eqn:E; [exact IH|].
  cbn [entries_delete]. now rewrite E, IH.
Qed.

Lemma delete_set (name v : string) (entries : Entries) :
  entries_delete name (entries_set name v entries) = entries_delete name entries.
Proof.
  induction entries as [|[k v'] rest IH]; cbn [entries_set entries_delete].
  - now rewrite String.eqb_refl.
  - destruct (String.eqb k name) eqn:E; cbn [entries_delete].
    + rewrite String.eqb_refl. apply delete_delete.
    + now rewrite E, IH.
Qed.

(** X10.  The redirect of a fresh POST (as in C2, on locals without a
    context) goes to a URL with one [__result] parameter and no more,
    however many the request URL carried: a stale result is replaced,
    not kept beside the new one.
    The other parameters are those of the request URL, in their order,
    and the part before the query is the same. *)
Theorem redirect_replaces_result {P : Platform} (context : APIContext)
    (next : M Response.t) (w : World) (actionName : string) (action : Action)
    (body : list byte) :
  _actionsInternal (locals w) = None ->
  Request.method (request context) = "POST" ->
  searchParam context "__action" = Some actionName ->
  actionName <> EmptyString ->
  Request.body (request context) = Some body ->
  getAction actionName = Some action ->
  (form_like (request context) = true ->
   request_formData (request context) <> None) ->
  exists redirectUrl,
    fst (onRequest context next w) = Return (redirect (href redirectUrl)) /\
    URL.base redirectUrl = URL.base (url context) /\
    occurrences "__result" (URL.searchParams redirectUrl) = 1 /\
    entries_delete "__result" (URL.searchParams redirectUrl)
    = entries_delete "__result" (URL.searchParams (url context)).
Proof.
  intros Hfresh Hm Ha Hne Hb Hreg Hform.
  eexists. split; [|split; [|split]].
  - rewrite (onRequest_post_action context next w Hfresh Hm)
      by (rewrite Ha; now apply truthy_Some).
    rewrite Ha. cbn [the].
    rewrite (handlePost_redirects context next w actionName action body
               Hb Hreg Hform).
    reflexivity.
  - reflexivity.
  - apply occurrences_set.
  - apply delete_set.
Qed.

Lemma redirect_replaces_result_witness :
  fst (@onRequest Demo.platform
         (Demo.context_of "POST" Demo.form_headers Demo.form_body
            [("__result", "stale"); ("__action", "like"); ("__result", "staler")])
         Demo.render Demo.fresh)
  = Return (@redirect Demo.platform
              ("https://example.com/page?__result=" ++ Demo.like_envelope
               ++ "&__action=like")).
Proof.
  destruct (@redirect_replaces_result Demo.platform
              (Demo.context_of "POST" Demo.form_headers Demo.form_body
                 [("__result", "stale"); ("__action", "like"); ("__result", "staler")])
              Demo.render Demo.fresh "like" Demo.like (list_byte_of_string "x=1")
              eq_refl eq_refl eq_refl) as [u [Hrun _]];
    [discriminate | reflexivity | reflexivity | discriminate |].
  reflexivity.
Defined.

(** ** The ambient store *)

Section Restores.
Context {P : Platform}.

Lemma restores_ret {A : Type} (a : A) : restores (ret a).
Proof. now intros w. Qed.

Lemma restores_throw {A : Type} (e : Thrown) : restores (@throw A e).
Proof. now intros w. Qed.

Lemma restores_bind {A B : Type} (m : M A) (k : A -> M B) :
  restores m -> (forall a, restores (k a)) -> restores (bind m k).
Proof.
  intros Hm Hk w. unfold bind. specialize (Hm w).
  destruct (m w) as [[a|e] w']; cbn [snd] in *; [|exact Hm].
  now rewrite (Hk a w').
Qed.

Lemma restores_orThrow {A : Type} (e : Thrown) (o : option A) :
  restores (orThrow e o).
Proof. destruct o; [apply restores_ret | apply restores_throw]. Qed.

Lemma restores_emit (ev : Event) : restores (emit ev).
Proof. now intros w. Qed.

Lemma restores_getRandomValues (n : nat) : restores (getRandomValues n).
Proof. now intros w. Qed.

Lemma restores_defineProperty (v : ActionsInternal) :
  restores (Object_defineProperty v).
Proof.
  intros w. unfold Object_defineProperty.
  destruct (_actionsInternal (locals w)) as [p|]; [|reflexivity].
  now destruct (configurable p || writable p).
Qed.

(** Whatever the callback does to the store, [run] puts it back. *)
Lemma restores_run {A : Type} (context : APIContext) (callback : M A) :
  restores (ApiContextStorage_run context callback).
Proof.
  intros w. unfold ApiContextStorage_run.
  now destruct (callback (with_storage (Some context) w)).
Qed.

Lemma restores_lookup (actionName : string) : restores (lookup actionName).
Proof.
  apply restores_bind; [apply restores_emit | intros; apply restores_ret].
Qed.

Lemma restores_formDataOf (request : Request.t) : restores (formDataOf request).
Proof.
  unfold formDataOf. destruct (form_like request); [|apply restores_ret].
  apply restores_bind; [apply restores_orThrow | intros; apply restores_ret].
Qed.

Lemma restores_encodeResult (result : ActionResult) : restores (encodeResult result).
Proof.
  apply restores_bind; [apply restores_getRandomValues | intros; apply restores_ret].
Qed.

Lemma restores_decodeResult (encodedResult : string) :
  restores (decodeResult encodedResult).
Proof. intros w. now rewrite decodeResult_world. Qed.

Lemma restores_stubs (context : APIContext) (next : M Response.t) :
  restores (nextWithStaticStub next context) /\
  restores (nextWithLocalsStub next context).
Proof.
  split; apply restores_bind;
    try apply restores_defineProperty; intros; apply restores_run.
Qed.

Lemma restores_handleResult (context : APIContext) (next : M Response.t)
    (actionName : string) (actionResult : ActionResult) :
  restores (handleResult context next actionName actionResult).
Proof.
  apply restores_bind; [now intros w|]. intros shared.
  apply restores_bind; [apply restores_defineProperty | intros; apply restores_run].
Qed.

Lemma restores_handlePost (context : APIContext) (next : M Response.t)
    (actionName : string) :
  restores (handlePost context next actionName).
Proof.
  unfold handlePost. destruct (Request.body (request context));
    [|apply restores_stubs].
  apply restores_bind; [apply restores_lookup|]. intros [action|];
    [|apply restores_throw].
  apply restores_bind; [apply restores_formDataOf|]. intros fd.
  apply restores_bind; [apply restores_run|]. intros result.
  apply restores_bind; [apply restores_encodeResult|]. intros encoded.
  apply restores_bind; [apply restores_emit | intros; apply restores_ret].
Qed.

Lemma restores_handlePostLegacy (context : APIContext) (next : M Response.t) :
  restores (handlePostLegacy context next).
Proof.
  unfold handlePostLegacy. destruct (Request.body (request context));
    [|apply restores_stubs].
  apply restores_bind; [apply restores_formDataOf|]. intros [fd|];
    [|apply restores_stubs].
  destruct (negb (truthy (entries_get "__action" fd))); [apply restores_stubs|].
  apply restores_bind; [apply restores_lookup|]. intros [action|];
    [|apply restores_throw].
  apply restores_bind; [apply restores_run|]. intros actionResult.
  apply restores_handleResult.
Qed.

End Restores.

(** X11.  The middleware never leaks the ambient request store: for
    every request, every continuation and every state of the locals, on
    every path -- re-entry, delivery, redirect, stubs, legacy post,
    failure -- the store of [ApiContextStorage] is at the end the one
    it was at the start, whatever the action and downstream did to it
    in between. *)
Theorem onRequest_restores_store {P : Platform} (context : APIContext)
    (next : M Response.t) (w : World) :
  storage (snd (onRequest context next w)) = storage w.
Proof.
  unfold onRequest.
  destruct (_actionsInternal (locals w)); [apply restores_run|].
  destruct (String.eqb (Request.method (request context)) "GET"
            && truthy (searchParam context "__action")
            && truthy (searchParam context "__result")).
  { apply (restores_bind (decodeResult _)); [apply restores_decodeResult|].
    intros r. apply restores_handleResult. }
  destruct (String.eqb (Request.method (request context)) "POST"
            && truthy (searchParam context "__action"));
    [apply restores_handlePost|].
  destruct (String.eqb (Request.method (request context)) "GET"
            && truthy (searchParam context "__action")); [reflexivity|].
  destruct (String.eqb (Request.method (request context)) "POST");
    [apply restores_handlePostLegacy | apply restores_stubs].
Qed.

(** X12.  The downstream continuation is only ever run with the request
    context as the ambient store: two continuations that do the same
    wherever the store is [context] give the same run of the
    middleware, on every path. *)
Theorem onRequest_runs_next_under_context {P : Platform} (context : APIContext)
    (next next' : M Response.t) (w : World) :
  agree_under context next next' ->
  onRequest context next w = onRequest context next' w.
Proof.
  intros Hagree.
  assert (Hrun : forall (post : Response.t -> M Response.t) w0,
            ApiContextStorage_run context (response <- next ;; post response) w0
            = ApiContextStorage_run context
                (response <- next' ;; post response) w0).
  { intros post w0. unfold ApiContextStorage_run, bind.
    now rewrite (Hagree (with_storage (Some context) w0) eq_refl). }
  assert (Hplain : forall w0,
            ApiContextStorage_run context next w0
            = ApiContextStorage_run context next' w0).
  { intros w0. unfold ApiContextStorage_run.
    now rewrite (Hagree (with_storage (Some context) w0) eq_refl). }
  assert (Hstatic : forall w0,
            nextWithStaticStub next context w0 = nextWithStaticStub next' context w0).
  { intros w0. unfold nextWithStaticStub, bind.
    destruct (Object_defineProperty StaticStub w0) as [[[]|e] w1];
      [apply Hplain | reflexivity]. }
  assert (Hlocals : forall w0,
            nextWithLocalsStub next context w0 = nextWithLocalsStub next' context w0).
  { intros w0. unfold nextWithLocalsStub, bind.
    destruct (Object_defineProperty LocalsStub w0) as [[[]|e] w1];
      [apply Hplain | reflexivity]. }
  assert (Hresult : forall actionName actionResult w0,
            handleResult context next actionName actionResult w0
            = handleResult context next' actionName actionResult w0).
  { intros actionName actionResult w0. unfold handleResult, bind at 1 2 5 6.
    cbn [share].
    destruct (Object_defineProperty _ (sharing actionResult w0)) as [[[]|e] w1];
      [apply (Hrun (deliver (List.length (heap w0)) actionResult)) | reflexivity]. }
  unfold onRequest.
  destruct (_actionsInternal (locals w)); [apply Hplain|].
  destruct (String.eqb (Request.method (request context)) "GET"
            && truthy (searchParam context "__action")
            && truthy (searchParam context "__result")).
  { unfold bind at 1 2.
    destruct (decodeResult _ w) as [[r|e] w1]; [apply Hresult | reflexivity]. }
  destruct (String.eqb (Request.method (request context)) "POST"
            && truthy (searchParam context "__action")).
  { unfold handlePost.
    destruct (Request.body (request context)); [reflexivity | apply Hstatic]. }
  destruct (String.eqb (Request.method (request context)) "GET"
            && truthy (searchParam context "__action")); [reflexivity|].
  destruct (String.eqb (Request.method (request context)) "POST");
    [|apply Hlocals].
  unfold handlePostLegacy.
  destruct (Request.body (request context)); [|apply Hstatic].
  unfold bind at 1 4.
  destruct (formDataOf (request context) w) as [[[fd|]|e] w1];
    [|apply Hlocals|reflexivity].
  destruct (negb (truthy (entries_get "__action" fd))); [apply Hlocals|].
  unfold bind at 1 3.
  destruct (lookup (the (entries_get "__action" fd)) w1) as [[[action|]|e] w2];
    [|reflexivity|reflexivity].
  unfold bind at 1 2.
  destruct (ApiContextStorage_run context _ w2) as [[actionResult|e] w3];
    [apply Hresult | reflexivity].
Qed.

Lemma onRequest_runs_next_under_context_witness :
  let context := Demo.context_of "GET" [] None [] in
  let picky : M Response.t :=
    fun w => match storage w with
             | Some _ => Demo.render w
             | None => (Throw (JsError "Error" "no request context"), w)
             end in
  @onRequest Demo.platform context picky Demo.fresh
  = @onRequest Demo.platform context Demo.render Demo.fresh.
Proof.
  intros context picky.
  apply (@onRequest_runs_next_under_context Demo.platform context picky Demo.render
           Demo.fresh).
  intros w Hw. unfold picky. now rewrite Hw.
Defined.

(** ** Failures of downstream *)

(** X13.  The middleware does not catch what downstream throws: on
    re-entry and on every path that hands over to downstream, a
    continuation that throws [e] makes the middleware throw [e] -- also
    when the stored action result is an error, whose status is then not
    applied. *)
Theorem onRequest_propagates_downstream_failure {P : Platform}
    (context : APIContext) (next : M Response.t) (w : World) (e : Thrown) :
  (forall w0, fst (next w0) = Throw e) ->
  _actionsInternal (locals w) <> None \/ installing_path context w = true ->
  fst (onRequest context next w) = Throw e.
Proof.
  intros Hthrows Hpath.
  destruct (_actionsInternal (locals w)) as [p|] eqn:Hslot.
  - unfold onRequest. rewrite Hslot. unfold ApiContextStorage_run.
    specialize (Hthrows (with_storage (Some context) w)).
    now destruct (next (with_storage (Some context) w)).
  - destruct Hpath as [Hsome | Hinst]; [congruence|].
    pose proof (dispatch_classified context w Hslot) as Hclass.
    rewrite Hinst in Hclass.
    destruct Hclass as [v [before [post [Hrun _]]]].
    rewrite Hrun. unfold ApiContextStorage_run, bind.
    specialize (Hthrows (with_storage (Some context) (install v before))).
    destruct (next (with_storage (Some context) (install v before))) as [[r|e'] w'];
      cbn [fst] in *; [discriminate | exact Hthrows].
Qed.

Lemma onRequest_propagates_downstream_failure_witness :
  let crash := JsError "Error" "render failed" in
  fst (@onRequest Demo.platform
         (Demo.context_of "POST" Demo.form_headers
            (Some (list_byte_of_string "__action=reject")) [])
         (throw crash) Demo.fresh)
  = Throw crash.
Proof.
  intros crash.
  apply (@onRequest_propagates_downstream_failure Demo.platform).
  - reflexivity.
  - right. reflexivity.
Defined.

(** ** Posts without a content type *)

Lemma form_like_without_content_type {P : Platform} (request : Request.t) :
  truthy (entries_get "content-type" (Request.headers request)) = false ->
  form_like request = false.
Proof. intros H. unfold form_like. now rewrite H. Qed.

(** X14.  On locals without a context, a POST with a body and no (or
    an empty) [content-type] header is never read as a form: neither [hasContentType] nor [formData()]
    matters.  On the fresh path the registered action is called without
    form data and the result is redirected as usual; on the legacy path
    the no-result stub is installed and the request goes downstream. *)
Theorem onRequest_post_without_content_type {P : Platform} (context : APIContext)
    (next : M Response.t) (w : World) (body : list byte) :
  _actionsInternal (locals w) = None ->
  Request.method (request context) = "POST" ->
  Request.body (request context) = Some body ->
  truthy (entries_get "content-type" (Request.headers (request context))) = false ->
  (forall actionName action,
     searchParam context "__action" = Some actionName ->
     actionName <> EmptyString ->
     getAction actionName = Some action ->
     let result := captured (action (Some context) None) in
     let redirectUrl :=
       URL.make (URL.base (url context))
         (entries_set "__result" (envelope (draw 12 w) result)
            (URL.searchParams (url context))) in
     onRequest context next w
     = (Return (redirect (href redirectUrl)),
        with_drawn (drawn w + 12)
          (with_trace
             (trace w ++ [GetAction actionName; CallAction actionName None;
                          ConsoleLog ("$$$redirect " ++ href redirectUrl)])%list w))) /\
  (truthy (searchParam context "__action") = false ->
   onRequest context next w
   = ApiContextStorage_run context next (install LocalsStub w)).
Proof.
  intros Hfresh Hm Hb Hct.
  pose proof (form_like_without_content_type (request context) Hct) as Hlike.
  split.
  - intros actionName action Ha Hne Hreg result redirectUrl.
    rewrite (onRequest_post_action context next w Hfresh Hm)
      by (rewrite Ha; now apply truthy_Some).
    rewrite Ha. cbn [the].
    pose proof (handlePost_redirects context next w actionName action body
                  Hb Hreg) as Hrun.
    rewrite Hlike in Hrun. apply Hrun. discriminate.
  - intros Ha. rewrite (onRequest_post_legacy context next w Hfresh Hm Ha).
    apply handlePostLegacy_stub with (body := body); auto.
Qed.

Lemma onRequest_post_without_content_type_witness :
  trace (snd (@onRequest Demo.unparsed
                (Demo.context_of "POST" [] Demo.form_body [("__action", "like")])
                Demo.render Demo.fresh))
  = [GetAction "like"; CallAction "like" None;
     ConsoleLog ("$$$redirect https://example.com/page?__action=like&__result="
                 ++ Demo.like_envelope)].
Proof.
  destruct (@onRequest_post_without_content_type Demo.unparsed
              (Demo.context_of "POST" [] Demo.form_body [("__action", "like")])
              Demo.render Demo.fresh (list_byte_of_string "x=1")
              eq_refl eq_refl eq_refl eq_refl) as [H _].
  rewrite (H "like" Demo.like eq_refl); [reflexivity | discriminate | reflexivity].
Defined.

(** ** How many steps a pass takes *)

Lemma occurs_snoc (k : Kind) (t : list Event) (ev : Event) :
  occurs k (t ++ [ev]) = occurs k t + weight k (kind_of ev).
Proof.
  unfold occurs, weight. rewrite filter_app, length_app. cbn [filter].
  now destruct (same_kind k (kind_of ev)).
Qed.

Section Counting.
Context {P : Platform}.
Variable k : Kind.

Lemma adds_le {A : Type} (a b : nat) (m : M A) :
  a <= b -> adds_at_most k a m -> adds_at_most k b m.
Proof. intros Hab Hm w. specialize (Hm w). lia. Qed.

Lemma adds_ret {A : Type} (a : A) : adds_at_most k 0 (ret a).
Proof. intros w. cbn. lia. Qed.

Lemma adds_throw {A : Type} (e : Thrown) : adds_at_most k 0 (@throw A e).
Proof. intros w. cbn. lia. Qed.

Lemma adds_bind {A B : Type} (a b : nat) (m : M A) (f : A -> M B) :
  adds_at_most k a m -> (forall x, adds_at_most k b (f x)) ->
  adds_at_most k (a + b) (bind m f).
Proof.
  intros Hm Hf w. unfold bind. specialize (Hm w).
  destruct (m w) as [[x|e] w']; cbn [snd] in *; [|lia].
  specialize (Hf x w'). lia.
Qed.

Lemma adds_orThrow {A : Type} (e : Thrown) (o : option A) :
  adds_at_most k 0 (orThrow e o).
Proof. destruct o; [apply adds_ret | apply adds_throw]. Qed.

Lemma adds_emit (ev : Event) : adds_at_most k (weight k (kind_of ev)) (emit ev).
Proof. intros w. cbn [emit snd trace with_trace]. rewrite occurs_snoc. lia. Qed.

Lemma adds_getRandomValues (n : nat) : adds_at_most k 0 (getRandomValues n).
Proof. intros w. unfold getRandomValues. cbn [snd trace with_drawn]. lia. Qed.

Lemma adds_defineProperty (v : ActionsInternal) :
  adds_at_most k (weight k Install) (Object_defineProperty v).
Proof.
  intros w. unfold Object_defineProperty.
  destruct (_actionsInternal (locals w)) as [p|];
    [destruct (configurable p || writable p)|];
    cbn [snd trace with_trace with_locals]; rewrite ?occurs_snoc; cbn [kind_of]; lia.
Qed.

Lemma adds_run {A : Type} (n : nat) (context : APIContext) (callback : M A) :
  adds_at_most k n callback ->
  adds_at_most k n (ApiContextStorage_run context callback).
Proof.
  intros H w. unfold ApiContextStorage_run.
  specialize (H (with_storage (Some context) w)).
  now destruct (callback (with_storage (Some context) w)).
Qed.

Lemma adds_callSafely (n : nat) (thunk : M json) :
  adds_at_most k n thunk -> adds_at_most k n (callSafely thunk).
Proof.
  intros H w. unfold callSafely. specialize (H w). now destruct (thunk w).
Qed.

Lemma adds_call (actionName : string) (action : Action) (fd : option FormData) :
  adds_at_most k (weight k Call) (call actionName action fd).
Proof.
  intros w. unfold call, bind. cbn [emit snd trace with_trace].
  rewrite occurs_snoc. cbn [kind_of]. lia.
Qed.

Lemma adds_lookup (actionName : string) :
  adds_at_most k (weight k Lookup) (lookup actionName).
Proof.
  intros w. unfold lookup, bind. cbn [emit ret snd trace with_trace].
  rewrite occurs_snoc. cbn [kind_of]. lia.
Qed.

Lemma adds_formDataOf (request : Request.t) : adds_at_most k 0 (formDataOf request).
Proof.
  unfold formDataOf. destruct (form_like request); [|apply adds_ret].
  apply (adds_bind 0 0); [apply adds_orThrow | intros; apply adds_ret].
Qed.

Lemma adds_encodeResult (result : ActionResult) :
  adds_at_most k 0 (encodeResult result).
Proof.
  apply (adds_bind 0 0); [apply adds_getRandomValues | intros; apply adds_ret].
Qed.

Lemma adds_decodeResult (encodedResult : string) :
  adds_at_most k 0 (decodeResult encodedResult).
Proof. intros w. rewrite decodeResult_world. lia. Qed.

Variables (context : APIContext) (next : M Response.t).
Hypothesis Hnext : adds_at_most k 0 next.

Lemma adds_stubs :
  adds_at_most k (weight k Install) (nextWithStaticStub next context) /\
  adds_at_most k (weight k Install) (nextWithLocalsStub next context).
Proof.
  split; apply (adds_le (weight k Install + 0)); try lia;
    (apply adds_bind; [apply adds_defineProperty | intros; now apply adds_run]).
Qed.

Lemma adds_deliver (shared : Ref) (built : ActionResult) (response : Response.t) :
  adds_at_most k 0 (deliver shared built response).
Proof. intros w. rewrite deliver_world. lia. Qed.

Lemma adds_handleResult (actionName : string) (actionResult : ActionResult) :
  adds_at_most k (weight k Install)
    (handleResult context next actionName actionResult).
Proof.
  apply (adds_le (0 + (weight k Install + 0))); [lia|].
  apply adds_bind; [intros w; unfold share, sharing; cbn [snd trace with_heap]; lia|].
  intros shared.
  apply adds_bind; [apply adds_defineProperty|]. intros _.
  apply adds_run. apply (adds_bind 0 0); [exact Hnext | intros; apply adds_deliver].
Qed.

Lemma adds_handlePost (actionName : string) :
  adds_at_most k 1 (handlePost context next actionName).
Proof.
  unfold handlePost. destruct (Request.body (request context)).
  - apply (adds_le (weight k Lookup + (0 + (weight k Call
                                           + (0 + (weight k Logging + 0))))));
      [destruct k; cbn; lia|].
    apply adds_bind; [apply adds_lookup|]. intros [action|].
    + apply adds_bind; [apply adds_formDataOf|]. intros fd.
      apply adds_bind; [apply adds_run, adds_callSafely, adds_call|]. intros result.
      apply adds_bind; [apply adds_encodeResult|]. intros encoded.
      apply adds_bind; [apply (adds_emit (ConsoleLog _)) | intros; apply adds_ret].
    + apply (adds_le 0); [lia | apply adds_throw].
  - apply (adds_le (weight k Install)); [destruct k; cbn; lia | apply adds_stubs].
Qed.

Lemma adds_handlePostLegacy : adds_at_most k 1 (handlePostLegacy context next).
Proof.
  assert (Hstub : forall n, weight k Install <= n ->
                    adds_at_most k n (nextWithLocalsStub next context))
    by (intros n Hn; apply (adds_le (weight k Install)); [exact Hn | apply adds_stubs]).
  unfold handlePostLegacy. destruct (Request.body (request context)).
  - apply (adds_le (0 + (weight k Lookup + (weight k Call + weight k Install))));
      [destruct k; cbn; lia|].
    apply adds_bind; [apply adds_formDataOf|]. intros [fd|]; [|apply Hstub; lia].
    destruct (negb (truthy (entries_get "__action" fd))); [apply Hstub; lia|].
    apply adds_bind; [apply adds_lookup|]. intros [action|].
    + apply adds_bind; [apply adds_run, adds_callSafely, adds_call|].
      intros actionResult. apply adds_handleResult.
    + apply (adds_le 0); [lia | apply adds_throw].
  - apply (adds_le (weight k Install)); [destruct k; cbn; lia | apply adds_stubs].
Qed.

End Counting.

(** X15.  A GET never executes anything: whatever the URL and the state
    of the locals, on a GET the middleware makes no registry lookup, no
    action call and no log or warning of its own -- the trace holds no
    more such steps at the end than downstream added.  (All it may add
    is the installation of a context.)  Reloading the page a redirect
    led to therefore does not run the action again. *)
Theorem onRequest_get_executes_nothing {P : Platform} (context : APIContext)
    (next : M Response.t) (k : Kind) :
  Request.method (request context) = "GET" ->
  k <> Install ->
  adds_at_most k 0 next ->
  adds_at_most k 0 (onRequest context next).
Proof.
  intros Hm Hk Hnext w.
  assert (Hw : weight k Install = 0) by (destruct k; [reflexivity.. | congruence | |]; reflexivity).
  unfold onRequest. rewrite Hm. cbn [String.eqb Ascii.eqb Bool.eqb andb].
  destruct (_actionsInternal (locals w)); [now apply adds_run|].
  destruct (truthy (searchParam context "__action")); cbn [andb].
  - destruct (truthy (searchParam context "__result")).
    + apply (adds_bind k 0 0 (decodeResult _)); [apply adds_decodeResult|].
      intros r. rewrite <- Hw. now apply adds_handleResult.
    + cbn. lia.
  - rewrite <- Hw. now apply adds_stubs.
Qed.

Lemma onRequest_get_executes_nothing_witness :
  let delivery :=
    Demo.context_of "GET" [] None
      [("__action", "like"); ("__result", Demo.like_envelope)] in
  occurs Call (trace (snd (@onRequest Demo.platform delivery Demo.render Demo.fresh)))
  <= occurs Call (trace Demo.fresh) + 0.
Proof.
  intros delivery.
  apply (@onRequest_get_executes_nothing Demo.platform delivery Demo.render Call).
  - reflexivity.
  - discriminate.
  - apply adds_ret.
Defined.

(** X16.  One pass through the middleware takes each kind of step at
    most once, for every request and every state of the locals: at most
    one registry lookup, one action call, one installation of a context
    and one log line beyond what downstream does itself. *)
Theorem onRequest_steps_at_most_once {P : Platform} (context : APIContext)
    (next : M Response.t) (k : Kind) :
  adds_at_most k 0 next ->
  adds_at_most k 1 (onRequest context next).
Proof.
  intros Hnext w.
  assert (Hw : weight k Install <= 1) by (destruct k; cbn; lia).
  unfold onRequest.
  destruct (_actionsInternal (locals w)).
  { apply (adds_le k 0 1); [lia | now apply adds_run]. }
  destruct (String.eqb (Request.method (request context)) "GET"
            && truthy (searchParam context "__action")
            && truthy (searchParam context "__result")).
  { apply (adds_le k (0 + weight k Install) 1); [lia|].
    apply (adds_bind k 0 _ (decodeResult _)); [apply adds_decodeResult|].
    intros r. now apply adds_handleResult. }
  destruct (String.eqb (Request.method (request context)) "POST"
            && truthy (searchParam context "__action"));
    [now apply adds_handlePost|].
  destruct (String.eqb (Request.method (request context)) "GET"
            && truthy (searchParam context "__action")); [cbn; lia|].
  destruct (String.eqb (Request.method (request context)) "POST");
    [now apply adds_handlePostLegacy|].
  apply (adds_le k (weight k Install) 1); [exact Hw | now apply adds_stubs].
Qed.

Lemma onRequest_steps_at_most_once_witness :
  let submitted :=
    Demo.context_of "POST" Demo.form_headers
      (Some (list_byte_of_string "__action=like")) [] in
  occurs Call (trace (snd (@onRequest Demo.platform submitted Demo.render Demo.fresh)))
  <= occurs Call (trace Demo.fresh) + 1.
Proof.
  intros submitted.
  apply (@onRequest_steps_at_most_once Demo.platform submitted Demo.render Call).
  apply adds_ret.
Defined.
